(** * The podman activation engine of eda-server

    A shallow embedding of [src/aap_eda/services/activation/engine/podman.py]:
    the [Engine] class that starts, inspects, tails and removes the container
    of one activation through the podman client.

    The podman client and the log handler are collaborators of the class.
    The client is kept abstract (a record of operations over an arbitrary
    engine state); the log handler is a recorder.  Every call made on either
    of them is appended to one chronological trace, oldest event first. *)

From Stdlib Require Import String Ascii List ZArith Lia Bool.
From Stdlib Require Import DecimalString DecimalZ.
Import ListNotations.
Set Warnings "-register-all".
Open Scope list_scope.
Open Scope string_scope.

(** ** Python text *)

Module Py.

(** [str(n)] for an [int]. *)
Definition str_int (z : Z) : string := NilEmpty.string_of_int (Z.to_int z).

(** [str(x)] for a value that is an [int] or [None]. *)
Definition str_opt_int (o : option Z) : string :=
  match o with
  | Some z => str_int z
  | None => "None"
  end.

(** [x == n] for a value [x] that is an [int] or [None]. *)
Definition opt_int_eqb (o : option Z) (n : Z) : bool :=
  match o with
  | Some z => Z.eqb z n
  | None => false
  end.

(** Truth value of a [str]: only the empty string is false. *)
Definition truthy (s : string) : bool :=
  match s with
  | EmptyString => false
  | String _ _ => true
  end.

(** [x in [s1, ..., sn]] for strings. *)
Fixpoint str_in (x : string) (l : list string) : bool :=
  match l with
  | [] => false
  | y :: l' => if String.eqb x y then true else str_in x l'
  end.

(** [sub in s] on strings, as a proposition. *)
Definition contains (sub s : string) : Prop :=
  exists pre post, s = pre ++ sub ++ post.

(** A format string, cut into literal text and replacement fields
    ([{name}]). *)
Inductive Piece : Type :=
| Lit (text : string)
| Field (name : string).

Definition Template : Type := list Piece.

Fixpoint lookup {A : Type} (k : string) (kw : list (string * A)) : option A :=
  match kw with
  | [] => None
  | (k', v) :: kw' => if String.eqb k k' then Some v else lookup k kw'
  end.

(** [template.format] applied to the keyword arguments [kw]: every field
    is replaced by its keyword argument; a field without one is a
    [KeyError], given as [inl name]; keyword arguments the template does
    not name are ignored. *)
Fixpoint format (t : Template) (kw : list (string * string)) : string + string :=
  match t with
  | [] => inr ""
  | Lit s :: t' =>
      match format t' kw with
      | inr rest => inr (s ++ rest)
      | inl k => inl k
      end
  | Field n :: t' =>
      match lookup n kw with
      | None => inl n
      | Some v =>
          match format t' kw with
          | inr rest => inr (v ++ rest)
          | inl k => inl k
          end
      end
  end.

(** The replacement fields of a template. *)
Fixpoint fields (t : Template) : list string :=
  match t with
  | [] => []
  | Lit _ :: t' => fields t'
  | Field n :: t' => n :: fields t'
  end.

(** Every field of [t] is among [names]. *)
Definition fields_within (names : list string) (t : Template) : bool :=
  forallb (fun n => str_in n names) (fields t).

(** [t] has the field [n]. *)
Definition has_field (n : string) (t : Template) : bool := str_in n (fields t).

End Py.

(** ** The collaborators *)

(** [aap_eda.core.enums.ActivationStatus], the four values the engine
    produces. *)
Inductive ActivationStatus : Type :=
| RUNNING
| COMPLETED
| FAILED
| ERROR.

(** [common.ContainerStatus]. *)
Record ContainerStatus : Type := mkContainerStatus {
  cs_status : ActivationStatus;
  cs_message : string
}.

(** [common.Credential]. *)
Record Credential : Type := mkCredential {
  username : string;
  secret : string
}.

(** Python values that travel as data: the content of the auth file
    ([json.load] / [json.dump]) and the keyword arguments of
    [containers.run].  A [dict] keeps its keys in insertion order. *)
Inductive PyVal : Type :=
| PNone
| PBool (b : bool)
| PInt (z : Z)
| PStr (s : string)
| PList (l : list PyVal)
| PDict (d : list (string * PyVal)).

(** [common.ContainerRequest].  [cmdline] holds what
    [request.cmdline.command_and_args()] returns; an absent optional field is
    [None], an empty list or an empty dict. *)
Record ContainerRequest : Type := mkContainerRequest {
  name : string;
  image_url : string;
  cmdline : list string;
  credential : option Credential;
  ports : list (PyVal * Z);
  pull_policy : string;
  mem_limit : option string;
  mounts : list PyVal;
  env_vars : list (string * PyVal);
  extra_args : list (string * PyVal)
}.

(** The templates of the [messages] module, which this engine formats. *)
Record Messages : Type := mkMessages {
  POD_COMPLETED : Py.Template;
  POD_GENERIC_FAIL : Py.Template;
  POD_RUNNING : Py.Template;
  POD_NOT_RUNNING : Py.Template;
  POD_WRONG_STATE : Py.Template;
  POD_UNEXPECTED : Py.Template;
  IMAGE_PULL_ERROR : Py.Template
}.

(** Modelled from the spec: the [messages] module is not part of the
    sources at hand; these templates carry the fields the engine passes to
    [format] and the wording of the state table ("pod completed", "generic
    fail message with exit code", "pod running", "pod not running", a "wrong
    state" and an "unexpected state" message naming the state). *)
Definition spec_messages : Messages := {|
  POD_COMPLETED := [Py.Lit "Pod "; Py.Field "pod_id"; Py.Lit " completed."];
  POD_GENERIC_FAIL :=
    [Py.Lit "Pod "; Py.Field "pod_id"; Py.Lit " failed with exit code ";
     Py.Field "exit_code"; Py.Lit "."];
  POD_RUNNING := [Py.Lit "Pod "; Py.Field "pod_id"; Py.Lit " is running."];
  POD_NOT_RUNNING := [Py.Lit "Pod "; Py.Field "pod_id"; Py.Lit " is not running."];
  POD_WRONG_STATE :=
    [Py.Lit "Pod "; Py.Field "pod_id"; Py.Lit " is in wrong state ";
     Py.Field "pod_state"; Py.Lit "."];
  POD_UNEXPECTED :=
    [Py.Lit "Pod "; Py.Field "pod_id"; Py.Lit " is in unexpected state ";
     Py.Field "pod_state"; Py.Lit "."];
  IMAGE_PULL_ERROR := [Py.Lit "Image "; Py.Field "image_url"; Py.Lit " pull failed."]
|}.

(** The errors of [podman.errors] that a client call raises.  [NotFound] and
    [ImageNotFound] are subclasses of [APIError]: an [except APIError] clause
    catches all three.  Each carries its [str(e)]. *)
Inductive APIError : Type :=
| GenericAPIError (msg : string)
| NotFound (msg : string)
| ImageNotFound (msg : string).

Definition api_str (e : APIError) : string :=
  match e with
  | GenericAPIError m => m
  | NotFound m => m
  | ImageNotFound m => m
  end.

(** [containers.run] raises [ContainerError] too, which is not an
    [APIError]. *)
Inductive RunError : Type :=
| RunAPIError (e : APIError)
| ContainerError (msg : string).

(** What the class sees of a container object: its id, its [status] and the
    two keys of [attrs["State"]] it reads, [None] when the key is absent. *)
Record Container : Type := mkContainer {
  id : string;
  status : string;
  state_error : option string;
  state_exit_code : option Z
}.

(** [podman.domain.images.Image]: its [id], [None] when the record has
    none. *)
Record Image : Type := mkImage {
  image_id : option string
}.

(** The arguments of [container.logs]. *)
Record LogArgs : Type := mkLogArgs {
  la_timestamps : bool;
  la_stderr : bool;
  la_since : option Z
}.

(** The arguments of [containers.run]. *)
Record RunArgs : Type := mkRunArgs {
  ra_image : string;
  ra_command : list string;
  ra_stdout : bool;
  ra_stderr : bool;
  ra_remove : bool;
  ra_detach : bool;
  ra_pod_args : list (string * PyVal)
}.

(** The client: every operation takes the engine state and answers with a
    value or an error, and a next engine state. *)
Record PodmanClient (E : Type) : Type := mkPodmanClient {
  containers_exists : string -> E -> (APIError + bool) * E;
  containers_get : string -> E -> (APIError + Container) * E;
  containers_run : RunArgs -> E -> (RunError + Container) * E;
  container_stop : Container -> E -> (APIError + unit) * E;
  container_remove : Container -> E -> (APIError + unit) * E;
  container_logs : Container -> LogArgs -> E -> (APIError + list string) * E;
  images_get : string -> E -> (APIError + Image) * E;
  images_pull : string -> option (string * string) -> E -> (APIError + Image) * E;
  client_login : string -> string -> string -> E -> (APIError + unit) * E
}.

Arguments containers_exists {E} _ _ _.
Arguments containers_get {E} _ _ _.
Arguments containers_run {E} _ _ _.
Arguments container_stop {E} _ _ _.
Arguments container_remove {E} _ _ _.
Arguments container_logs {E} _ _ _ _.
Arguments images_get {E} _ _ _.
Arguments images_pull {E} _ _ _ _.
Arguments client_login {E} _ _ _ _ _.

(** A call on the client. *)
Inductive EngineCall : Type :=
| ContainersExists (container_id : string)
| ContainersGet (container_id : string)
| ContainersRun (args : RunArgs)
| ContainerStop (container_id : string)
| ContainerRemove (container_id : string)
| ContainerLogs (container_id : string) (args : LogArgs)
| ImagesGet (image : string)
| ImagesPull (image : string) (auth_config : option (string * string))
| Login (user password registry : string).

(** A moment in time: microseconds since the epoch. *)
Definition datetime : Type := Z.

(** An observable event: a call on the client, a call on the log handler, or
    the rewriting of a file. *)
Inductive Event : Type :=
| Engine (c : EngineCall)
| SinkWrite (lines : string) (flush : bool) (timestamp : bool)
| SinkFlush
| SinkSetLogReadAt (dt : datetime)
| FileDump (path : string) (content : PyVal).

Definition is_engine_event (ev : Event) : bool :=
  match ev with Engine _ => true | _ => false end.


(** The exceptions an operation can end with: the errors of
    [engine.exceptions], a podman error nobody caught, and the built-in
    errors of the Python steps. *)
Inductive Exn : Type :=
| ContainerEngineInitError (msg : string)
| ContainerStartError (msg : string)
| ContainerImagePullError (msg : string)
| ContainerNotFoundError (msg : string)
| ContainerUpdateLogsError (msg : string)
| ContainerCleanupError (msg : string)
| PodmanAPIError (e : APIError)
| PodmanContainerError (msg : string)
| KeyError (key : string)
| TypeError
| UnicodeEncodeError
| AttributeError
| OSError
| JSONDecodeError
| ParserError (text : string).

Inductive Outcome (A : Type) : Type :=
| Ok (a : A)
| Raise (e : Exn).

Arguments Ok {A} a.
Arguments Raise {A} e.

(** ** More Python text: the string methods the class calls *)

Module PyStr.

(** [c.isspace()] for a code point below 256. *)
Definition isspace (c : ascii) : bool :=
  let n := nat_of_ascii c in
  ((9 <=? n) && (n <=? 13) || (28 <=? n) && (n <=? 32)
   || (n =? 133) || (n =? 160))%nat.

Fixpoint lstrip (s : string) : string :=
  match s with
  | EmptyString => EmptyString
  | String c s' => if isspace c then lstrip s' else s
  end.

Fixpoint rstrip (s : string) : string :=
  match s with
  | EmptyString => EmptyString
  | String c s' =>
      match rstrip s' with
      | EmptyString => if isspace c then EmptyString else String c EmptyString
      | r => String c r
      end
  end.

(** [s.strip()]. *)
Definition strip (s : string) : string := rstrip (lstrip s).

(** [s.split(sep, 1)] for a one-character separator: the text before the
    first separator, and the text after it when there is one (the list has
    two items then, and one otherwise). *)
Fixpoint split1 (sep : ascii) (s : string) : string * option string :=
  match s with
  | EmptyString => (EmptyString, None)
  | String c s' =>
      if Ascii.eqb c sep then (EmptyString, Some s')
      else let (h, t) := split1 sep s' in (String c h, t)
  end.

(** [s.split("/")[0]]. *)
Definition before_slash (s : string) : string := fst (split1 "/"%char s).

(** [s.encode("ascii")] succeeds when every code point is below 128. *)
Fixpoint is_ascii (s : string) : bool :=
  match s with
  | EmptyString => true
  | String c s' => (nat_of_ascii c <? 128)%nat && is_ascii s'
  end.

Definition b64_alphabet : string :=
  "ABCDEFGHIJKLMNOPQRSTUVWXYZabcdefghijklmnopqrstuvwxyz0123456789+/".

Definition b64_digit (n : N) : ascii :=
  match String.get (N.to_nat n) b64_alphabet with
  | Some c => c
  | None => "="%char
  end.

(** [base64.b64encode]: three bytes give four digits; one or two bytes
    left over are padded with [=]. *)
Fixpoint b64encode (s : string) : string :=
  match s with
  | EmptyString => EmptyString
  | String a EmptyString =>
      let x := N_of_ascii a in
      String (b64_digit (x / 4))
        (String (b64_digit ((x mod 4) * 16)) "==")
  | String a (String b EmptyString) =>
      let x := N_of_ascii a in
      let y := N_of_ascii b in
      String (b64_digit (x / 4))
        (String (b64_digit ((x mod 4) * 16 + y / 16))
           (String (b64_digit ((y mod 16) * 4)) "="))
  | String a (String b (String c rest)) =>
      let x := N_of_ascii a in
      let y := N_of_ascii b in
      let z := N_of_ascii c in
      String (b64_digit (x / 4))
        (String (b64_digit ((x mod 4) * 16 + y / 16))
           (String (b64_digit ((y mod 16) * 4 + z / 64))
              (String (b64_digit (z mod 64)) (b64encode rest))))
  end.

(** The head of [posixpath.split]: the path up to and including its last
    slash, [None] when it has no slash. *)
Fixpoint up_to_last_slash (p : string) : option string :=
  match p with
  | EmptyString => None
  | String c p' =>
      match up_to_last_slash p' with
      | Some h => Some (String c h)
      | None => if Ascii.eqb c "/"%char then Some "/" else None
      end
  end.

Fixpoint all_slashes (s : string) : bool :=
  match s with
  | EmptyString => true
  | String c s' => Ascii.eqb c "/"%char && all_slashes s'
  end.

Fixpoint rstrip_slashes (s : string) : string :=
  match s with
  | EmptyString => EmptyString
  | String c s' =>
      match rstrip_slashes s' with
      | EmptyString =>
          if Ascii.eqb c "/"%char then EmptyString else String c EmptyString
      | r => String c r
      end
  end.

(** [os.path.dirname] on a POSIX system. *)
Definition dirname (p : string) : string :=
  match up_to_last_slash p with
  | None => EmptyString
  | Some head => if all_slashes head then head else rstrip_slashes head
  end.

End PyStr.

(** ** Python dicts with string keys, in insertion order *)

Module Dict.

Definition t (A : Type) : Type := list (string * A).

Definition get {A : Type} (k : string) (d : t A) : option A := Py.lookup k d.

(** [d[k] = v]: an existing key keeps its place. *)
Fixpoint set {A : Type} (k : string) (v : A) (d : t A) : t A :=
  match d with
  | [] => [(k, v)]
  | (k', v') :: d' =>
      if String.eqb k k' then (k, v) :: d' else (k', v') :: set k v d'
  end.

Definition mem {A : Type} (k : string) (d : t A) : bool :=
  match get k d with Some _ => true | None => false end.

End Dict.

(** ** The state the class works on *)

(** What the class reads of the process environment and of the file system:
    [os.getenv("XDG_RUNTIME_DIR")], [os.getuid()], the directories that exist
    and the files that exist, each with the JSON document it holds ([None]
    for a file that is not a JSON document). *)
Record FileSystem : Type := mkFileSystem {
  XDG_RUNTIME_DIR : option string;
  uid : Z;
  dirs : list string;
  files : Dict.t (option PyVal)
}.

(** [os.path.exists]. *)
Definition path_exists (f : FileSystem) (p : string) : bool :=
  Py.str_in p (dirs f) || Dict.mem p (files f).

Definition dump_file (p : string) (v : PyVal) (f : FileSystem) : FileSystem :=
  mkFileSystem (XDG_RUNTIME_DIR f) (uid f) (dirs f) (Dict.set p (Some v) (files f)).

(** The engine state, the trace of events so far, the watermark the log
    handler holds, [self.auth_file] and the file system. *)
Record World (E : Type) : Type := mkWorld {
  engine : E;
  trace : list Event;
  log_read_at : option datetime;
  auth_file : option string;
  fs : FileSystem
}.

Arguments mkWorld {E} _ _ _ _ _.
Arguments engine {E} _.
Arguments trace {E} _.
Arguments log_read_at {E} _.
Arguments auth_file {E} _.
Arguments fs {E} _.

(** A method: it runs on a world and ends with a value or an exception, in a
    next world. *)
Definition M (E A : Type) : Type := World E -> Outcome A * World E.

Definition ret {E A : Type} (a : A) : M E A := fun w => (Ok a, w).

Definition raise {E A : Type} (e : Exn) : M E A := fun w => (Raise e, w).

Definition bind {E A B : Type} (m : M E A) (k : A -> M E B) : M E B :=
  fun w =>
    match m w with
    | (Ok a, w') => k a w'
    | (Raise e, w') => (Raise e, w')
    end.

(** [try: body / except ...: handler]: [handler e] is [None] when no
    [except] clause matches [e]. *)
Definition try_except {E A : Type} (body : M E A)
    (handler : Exn -> option (M E A)) : M E A :=
  fun w =>
    match body w with
    | (Ok a, w') => (Ok a, w')
    | (Raise e, w') =>
        match handler e with
        | Some h => h w'
        | None => (Raise e, w')
        end
    end.

Notation "x <- c1 ;; c2" := (bind c1 (fun x => c2))
  (at level 61, c1 at next level, right associativity).
Notation "c1 ;; c2" := (bind c1 (fun _ => c2))
  (at level 61, right associativity).

Definition emit {E : Type} (ev : Event) : M E unit :=
  fun w =>
    (Ok tt, mkWorld (engine w) (trace w ++ [ev])%list (log_read_at w)
              (auth_file w) (fs w)).

(** A call on the client: it is recorded, the engine moves on, and an error
    answer is raised. *)
Definition call {E A : Type} (c : EngineCall) (op : E -> (APIError + A) * E)
    : M E A :=
  fun w =>
    let (r, e') := op (engine w) in
    let w' := mkWorld e' (trace w ++ [Engine c])%list (log_read_at w)
                (auth_file w) (fs w) in
    match r with
    | inr a => (Ok a, w')
    | inl err => (Raise (PodmanAPIError err), w')
    end.

Definition call_run {E : Type} (args : RunArgs)
    (op : E -> (RunError + Container) * E) : M E Container :=
  fun w =>
    let (r, e') := op (engine w) in
    let w' := mkWorld e' (trace w ++ [Engine (ContainersRun args)])%list
                (log_read_at w) (auth_file w) (fs w) in
    match r with
    | inr c => (Ok c, w')
    | inl (RunAPIError err) => (Raise (PodmanAPIError err), w')
    | inl (ContainerError msg) => (Raise (PodmanContainerError msg), w')
    end.

(** [template.format(...)] as a step of a method. *)
Definition fmt {E : Type} (t : Py.Template) (kw : list (string * string))
    : M E string :=
  match Py.format t kw with
  | inr s => ret s
  | inl k => raise (KeyError k)
  end.

(** Modelled from the spec: [common.LogHandler] is not part of the sources at
    hand.  It is a sink plus a persisted watermark: [write(lines, flush,
    timestamp)] (with [timestamp] true unless given) and [flush()] reach the
    sink, [get_log_read_at()] reads the watermark, [set_log_read_at(dt)]
    stores it. *)
Module LogHandler.

Definition write {E : Type} (lines : string) (flush timestamp : bool) : M E unit :=
  emit (SinkWrite lines flush timestamp).

Definition flush {E : Type} : M E unit := emit SinkFlush.

Definition get_log_read_at {E : Type} : M E (option datetime) :=
  fun w => (Ok (log_read_at w), w).

Definition set_log_read_at {E : Type} (dt : datetime) : M E unit :=
  fun w =>
    (Ok tt, mkWorld (engine w) (trace w ++ [SinkSetLogReadAt dt])%list (Some dt)
              (auth_file w) (fs w)).

End LogHandler.

(** [int(dt.timestamp())]: the whole seconds of [dt], cut towards zero.
    ([timestamp()] is a float; it is near enough to the exact quotient for
    [int] to give this value for every date before the year 2514.) *)
Definition timestamp_int (dt : datetime) : Z := Z.quot dt 1000000.

Definition lift {E A : Type} (o : Outcome A) : M E A := fun w => (o, w).

(** Reading [self.auth_file]. *)
Definition get_auth_file {E : Type} : M E (option string) :=
  fun w => (Ok (auth_file w), w).

Definition os_path_exists {E : Type} (p : string) : M E bool :=
  fun w => (Ok (path_exists (fs w) p), w).

(** [json.load] on the file at [p], known to exist: a directory cannot be
    opened, and a file that holds no JSON document cannot be decoded. *)
Definition json_load {E : Type} (p : string) : M E PyVal :=
  fun w =>
    match Dict.get p (files (fs w)) with
    | Some (Some v) => (Ok v, w)
    | Some None => (Raise JSONDecodeError, w)
    | None => (Raise OSError, w)
    end.

(** [json.dump] into the file at [p], opened for writing: [v] becomes the
    document of the file. *)
Definition json_dump {E : Type} (p : string) (v : PyVal) : M E unit :=
  fun w =>
    (Ok tt,
     mkWorld (engine w) (trace w ++ [FileDump p v])%list (log_read_at w)
       (auth_file w) (dump_file p v (fs w))).

(** ** Operators on Python values *)

Module PyObj.

Fixpoint is_prefix (p s : string) : bool :=
  match p, s with
  | EmptyString, _ => true
  | String a p', String b s' => Ascii.eqb a b && is_prefix p' s'
  | String _ _, EmptyString => false
  end.

Fixpoint substr (sub s : string) : bool :=
  is_prefix sub s
  || match s with
     | EmptyString => false
     | String _ s' => substr sub s'
     end.

Definition is_str (k : string) (v : PyVal) : bool :=
  match v with
  | PStr s => String.eqb s k
  | _ => false
  end.

(** [k in v] for a string [k]. *)
Definition contains (k : string) (v : PyVal) : Outcome bool :=
  match v with
  | PDict d => Ok (Dict.mem k d)
  | PStr s => Ok (substr k s)
  | PList l => Ok (existsb (is_str k) l)
  | _ => Raise TypeError
  end.

(** [v[k] = x] for a string [k]. *)
Definition setitem (k : string) (x v : PyVal) : Outcome PyVal :=
  match v with
  | PDict d => Ok (PDict (Dict.set k x d))
  | _ => Raise TypeError
  end.

(** [v[k]] for a string [k]. *)
Definition getitem (k : string) (v : PyVal) : Outcome PyVal :=
  match v with
  | PDict d =>
      match Dict.get k d with
      | Some x => Ok x
      | None => Raise (KeyError k)
      end
  | _ => Raise TypeError
  end.

End PyObj.

(** ** The class [Engine] *)

Section Engine.

Context {E : Type}.

(** [self.client]. *)
Variable client : PodmanClient E.

(** The [messages] module. *)
Variable messages : Messages.

(** [dateutil.parser.parse] on the timestamp of a log line; [None] when it
    raises [ParserError]. *)
Variable parse : string -> option datetime.

(** How Python prints the command list inside an f-string. *)
Variable repr_command : list string -> string.

Definition not_found_handler (h : M E unit) (e : Exn) : option (M E unit) :=
  match e with
  | PodmanAPIError (NotFound _) => Some h
  | _ => None
  end.

Definition _cleanup (container_id : string) : M E unit :=
  try_except
    (found <- call (ContainersExists container_id)
                (containers_exists client container_id) ;;
     if (found : bool) then
       container <- call (ContainersGet container_id)
                      (containers_get client container_id) ;;
       try_except
         (call (ContainerRemove (id container))
            (container_remove client container))
         (not_found_handler (ret tt))
     else ret tt)
    (fun e =>
       match e with
       | PodmanAPIError a => Some (raise (ContainerCleanupError (api_str a)))
       | _ => None
       end).

Definition _get_ports (found_ports : list (PyVal * Z)) : Dict.t PyVal :=
  fold_left
    (fun ports_ (p : PyVal * Z) =>
       let (_, port) := p in
       Dict.set (Py.str_int port ++ "/tcp") (PInt port) ports_)
    found_ports [].

Definition _login (request : ContainerRequest) : M E unit :=
  match credential request with
  | None => ret tt
  | Some cred =>
      try_except
        (let registry := PyStr.before_slash (image_url request) in
         call (Login (username cred) (secret cred) registry)
           (client_login client (username cred) (secret cred) registry))
        (fun e =>
           match e with
           | PodmanAPIError a => Some (raise (ContainerStartError (api_str a)))
           | _ => None
           end)
  end.

Definition _create_auth_key (cred : Credential) : Outcome (Dict.t PyVal) :=
  let data := username cred ++ ":" ++ secret cred in
  if PyStr.is_ascii data then Ok [("auth", PStr (PyStr.b64encode data))]
  else Raise UnicodeEncodeError.

(** The item assignment [auth_dict["auths"][registry] = ...] evaluates its
    right-hand side first; the inner dict it updates is the one [auth_dict]
    holds, so the update shows in [auth_dict]. *)
Definition _write_auth_json (request : ContainerRequest) : M E unit :=
  path_opt <- get_auth_file ;;
  match path_opt with
  | None => ret tt
  | Some path =>
      found <- os_path_exists path ;;
      auth_dict <- (if (found : bool) then json_load path else ret (PDict [])) ;;
      has_auths <- lift (PyObj.contains "auths" auth_dict) ;;
      auth_dict <- (if negb has_auths
                    then lift (PyObj.setitem "auths" (PDict []) auth_dict)
                    else ret auth_dict) ;;
      let registry := PyStr.before_slash (image_url request) in
      key <- lift (match credential request with
                   | Some cred => _create_auth_key cred
                   | None => Raise AttributeError
                   end) ;;
      auths <- lift (PyObj.getitem "auths" auth_dict) ;;
      auths <- lift (PyObj.setitem registry (PDict key) auths) ;;
      auth_dict <- lift (PyObj.setitem "auths" auths auth_dict) ;;
      json_dump path auth_dict
  end.

Definition _set_auth_json_file : M E unit :=
  fun w =>
    let xdg_runtime_dir :=
      match XDG_RUNTIME_DIR (fs w) with
      | Some d => d
      | None => "/run/user/" ++ Py.str_int (uid (fs w))
      end in
    let auth_file_ := xdg_runtime_dir ++ "/containers/auth.json" in
    let dir_name := PyStr.dirname auth_file_ in
    (Ok tt,
     mkWorld (engine w) (trace w) (log_read_at w)
       (if path_exists (fs w) dir_name then Some auth_file_ else None)
       (fs w)).

(** Truth value of [image.id]. *)
Definition image_id_truthy (image : Image) : bool :=
  match image_id image with
  | Some s => Py.truthy s
  | None => false
  end.

Definition _pull_image (request : ContainerRequest) : M E Image :=
  try_except
    (LogHandler.write ("Pulling image " ++ image_url request) true true ;;
     kwargs <- match credential request with
               | Some cred =>
                   _write_auth_json request ;;
                   ret (Some (username cred, secret cred))
               | None => ret None
               end ;;
     image <- call (ImagesPull (image_url request) kwargs)
                (images_pull client (image_url request) kwargs) ;;
     if negb (image_id_truthy image) then
       msg <- fmt (IMAGE_PULL_ERROR messages)
                [("image_url", image_url request)] ;;
       LogHandler.write msg true true ;;
       raise (ContainerImagePullError msg)
     else ret image)
    (fun e =>
       match e with
       | PodmanAPIError (ImageNotFound _) =>
           Some (let msg := "Image " ++ image_url request ++ " not found" in
                 LogHandler.write msg true true ;;
                 raise (ContainerImagePullError msg))
       | PodmanAPIError a => Some (raise (ContainerStartError (api_str a)))
       | _ => None
       end).

Definition _load_pod_args (request : ContainerRequest) : Dict.t PyVal :=
  let pod_args := [("name", PStr (name request))] in
  let pod_args :=
    match ports request with
    | [] => pod_args
    | _ :: _ => Dict.set "ports" (PDict (_get_ports (ports request))) pod_args
    end in
  let pod_args :=
    match mem_limit request with
    | Some m => if Py.truthy m then Dict.set "mem_limit" (PStr m) pod_args
                else pod_args
    | None => pod_args
    end in
  let pod_args :=
    match mounts request with
    | [] => pod_args
    | _ :: _ => Dict.set "mounts" (PList (mounts request)) pod_args
    end in
  let pod_args :=
    match env_vars request with
    | [] => pod_args
    | _ :: _ => Dict.set "environment" (PDict (env_vars request)) pod_args
    end in
  fold_left (fun acc (kv : string * PyVal) => Dict.set (fst kv) (snd kv) acc)
    (extra_args request) pod_args.

Definition _image_exists (image : string) : M E bool :=
  try_except
    (call (ImagesGet image) (images_get client image) ;; ret true)
    (fun e =>
       match e with
       | PodmanAPIError (ImageNotFound _) => Some (ret false)
       | _ => None
       end).

(** The body of the [for] loop of [update_logs], over the lines the engine
    returned (each as the text its bytes decode to); [timestamp] is the
    variable of that name. *)
Fixpoint update_logs_loop (lines : list string) (timestamp : option string)
    : M E (option string) :=
  match lines with
  | [] => ret timestamp
  | logline :: rest =>
      let log := PyStr.strip logline in
      let log_parts := PyStr.split1 " "%char log in
      (match snd log_parts with
       | Some payload => LogHandler.write payload false false
       | None => ret tt
       end) ;;
      update_logs_loop rest (Some (fst log_parts))
  end.

(** Truth value of [since]: an [int] or [None]. *)
Definition since_truthy (since : option Z) : bool :=
  match since with
  | Some z => negb (Z.eqb z 0)
  | None => false
  end.

Definition update_logs (container_id : string) : M E unit :=
  try_except
    (found <- call (ContainersExists container_id)
                (containers_exists client container_id) ;;
     if negb found then
       LogHandler.write ("Container " ++ container_id ++ " not found.") true true
     else
       log_read_at_ <- LogHandler.get_log_read_at ;;
       since <- match log_read_at_ with
                | Some _ =>
                    again <- LogHandler.get_log_read_at ;;
                    match again with
                    | Some dt => ret (Some (timestamp_int dt + 1)%Z)
                    | None => raise AttributeError
                    end
                | None => ret None
                end ;;
       container <- call (ContainersGet container_id)
                      (containers_get client container_id) ;;
       let log_args :=
         mkLogArgs true true (if since_truthy since then since else None) in
       lines <- call (ContainerLogs (id container) log_args)
                  (container_logs client container log_args) ;;
       timestamp <- update_logs_loop lines None ;;
       match timestamp with
       | Some ts =>
           if Py.truthy ts then
             match parse ts with
             | Some dt =>
                 LogHandler.flush ;;
                 LogHandler.set_log_read_at dt
             | None => raise (ParserError ts)
             end
           else ret tt
       | None => ret tt
       end)
    (fun e =>
       match e with
       | PodmanAPIError a => Some (raise (ContainerUpdateLogsError (api_str a)))
       | _ => None
       end).

(** [container.stop(ignore=True)], then the last log update and the removal
    ([container.remove(force=True, v=True)] inside [_cleanup]). *)
Definition cleanup (container_id : string) : M E unit :=
  try_except
    (found <- call (ContainersExists container_id)
                (containers_exists client container_id) ;;
     if (found : bool) then
       container <- call (ContainersGet container_id)
                      (containers_get client container_id) ;;
       try_except
         (call (ContainerStop (id container)) (container_stop client container) ;;
          update_logs container_id ;;
          _cleanup container_id ;;
          LogHandler.write ("Container " ++ container_id ++ " is cleaned up.")
            true true)
         (not_found_handler
            (LogHandler.write ("Container " ++ container_id ++ " not found.")
               true true))
     else ret tt)
    (fun e =>
       match e with
       | PodmanAPIError a => Some (raise (ContainerCleanupError (api_str a)))
       | _ => None
       end).

(** The keyword arguments [start] itself passes to [containers.run]; a key
    of [pod_args] that repeats one of them makes the call a [TypeError]. *)
Definition run_keywords : list string :=
  ["image"; "command"; "stdout"; "stderr"; "remove"; "detach"].

Definition start (request : ContainerRequest) : M E string :=
  if negb (Py.truthy (image_url request)) then
    raise (ContainerStartError "Missing image url")
  else
    try_except
      (_set_auth_json_file ;;
       _login request ;;
       pull <- (if String.eqb (pull_policy request) "Always" then ret true
                else found <- _image_exists (image_url request) ;;
                     ret (negb found)) ;;
       (if (pull : bool) then _pull_image request ;; ret tt else ret tt) ;;
       LogHandler.write "Starting Container" true true ;;
       let command := cmdline request in
       LogHandler.write ("Container args " ++ repr_command command) true true ;;
       let pod_args := _load_pod_args request in
       container <-
         (if existsb (fun kv : string * PyVal => Py.str_in (fst kv) run_keywords)
               pod_args
          then raise TypeError
          else
            let args := mkRunArgs (image_url request) command true true true
                          true pod_args in
            call_run args (containers_run client args)) ;;
       LogHandler.write ("Container " ++ id container ++ " is started.")
         true true ;;
       ret (id container))
      (fun e =>
         let handle (text : string) : option (M E string) :=
           Some (let error_message := "Container Start Error: " ++ text in
                 LogHandler.write error_message true true ;;
                 raise (ContainerStartError error_message)) in
         match e with
         | PodmanAPIError a => handle (api_str a)
         | PodmanContainerError msg => handle msg
         | _ => None
         end).

(** [container.attrs.get("State").get("Error", "")]. *)
Definition state_error_text (container : Container) : string :=
  match state_error container with
  | Some s => s
  | None => ""
  end.

Definition get_status (container_id : string) : M E ContainerStatus :=
  found <- call (ContainersExists container_id)
             (containers_exists client container_id) ;;
  if negb found then
    raise (ContainerNotFoundError
             ("Container id " ++ container_id ++ " not found"))
  else
    container <- call (ContainersGet container_id)
                   (containers_get client container_id) ;;
    let error_msg := state_error_text container in
    if Py.str_in (status container) ["exited"; "stopped"] then
      let exit_code := state_exit_code container in
      if Py.opt_int_eqb exit_code 0 then
        message <- fmt (POD_COMPLETED messages) [("pod_id", container_id)] ;;
        ret (mkContainerStatus COMPLETED message)
      else
        error_msg <-
          (if negb (Py.truthy error_msg) then
             fmt (POD_GENERIC_FAIL messages)
               [("pod_id", container_id);
                ("exit_code", Py.str_opt_int exit_code)]
           else ret error_msg) ;;
        ret (mkContainerStatus FAILED error_msg)
    else if Py.str_in (status container) ["running"; "stopping"] then
      message <- fmt (POD_RUNNING messages) [("pod_id", container_id)] ;;
      ret (mkContainerStatus RUNNING message)
    else if String.eqb (status container) "created" then
      error_msg <-
        (if negb (Py.truthy error_msg) then
           fmt (POD_NOT_RUNNING messages) [("pod_id", container_id)]
         else ret error_msg) ;;
      ret (mkContainerStatus FAILED error_msg)
    else if Py.str_in (status container)
              ["paused"; "restarting"; "removing"; "dead"; "configured";
               "unknown"] then
      message <- fmt (POD_WRONG_STATE messages)
                   [("pod_id", container_id);
                    ("pod_state", status container)] ;;
      ret (mkContainerStatus FAILED message)
    else
      message <- fmt (POD_UNEXPECTED messages)
                   [("pod_id", container_id);
                    ("pod_state", status container)] ;;
      ret (mkContainerStatus ERROR message).

End Engine.

(** ** A small engine to run the class on

    An in-memory engine: the containers it holds, each with its log lines
    (the whole second of the line and the text the engine sends for it), the
    images it holds locally, the images its registry offers, and a script of
    faults: the answer the next calls get instead of the regular one
    ([None] for the regular answer). *)

Module Sim.

Record container : Type := mkC {
  c_view : Container;
  c_logs : list (Z * string)
}.

Record state : Type := mkState {
  containers : list container;
  images : Dict.t Image;
  registry : Dict.t Image;
  faults : list (option APIError);
  next_id : string
}.

Definition with_containers (cs : list container) (s : state) : state :=
  mkState cs (images s) (registry s) (faults s) (next_id s).

Definition with_images (im : Dict.t Image) (s : state) : state :=
  mkState (containers s) im (registry s) (faults s) (next_id s).

Fixpoint find (cid : string) (cs : list container) : option container :=
  match cs with
  | [] => None
  | c :: cs' => if String.eqb (id (c_view c)) cid then Some c else find cid cs'
  end.

Definition drop (cid : string) (cs : list container) : list container :=
  filter (fun c => negb (String.eqb (id (c_view c)) cid)) cs.

(** A call first takes the next fault of the script, if any. *)
Definition answer {A : Type} (regular : state -> (APIError + A) * state)
    (s : state) : (APIError + A) * state :=
  match faults s with
  | Some err :: rest =>
      (inl err, mkState (containers s) (images s) (registry s) rest (next_id s))
  | None :: rest =>
      regular (mkState (containers s) (images s) (registry s) rest (next_id s))
  | [] => regular s
  end.

Definition no_such (cid : string) : APIError :=
  NotFound ("no such container " ++ cid).

(** The regular answers. *)

Definition regular_exists (cid : string) (s : state) : (APIError + bool) * state :=
  (inr (match find cid (containers s) with Some _ => true | None => false end),
   s).

Definition regular_get (cid : string) (s : state)
    : (APIError + Container) * state :=
  match find cid (containers s) with
  | Some c => (inr (c_view c), s)
  | None => (inl (no_such cid), s)
  end.

(** The engine removes a stopped container by itself ([remove=True]). *)
Definition regular_stop (c : Container) (s : state) : (APIError + unit) * state :=
  match find (id c) (containers s) with
  | Some _ => (inr tt, with_containers (drop (id c) (containers s)) s)
  | None => (inl (no_such (id c)), s)
  end.

Definition regular_remove (c : Container) (s : state)
    : (APIError + unit) * state :=
  match find (id c) (containers s) with
  | Some _ => (inr tt, with_containers (drop (id c) (containers s)) s)
  | None => (inl (no_such (id c)), s)
  end.

Definition since_ok (since : option Z) (line : Z * string) : bool :=
  match since with
  | Some t => (t <=? fst line)%Z
  | None => true
  end.

Definition regular_logs (c : Container) (args : LogArgs) (s : state)
    : (APIError + list string) * state :=
  match find (id c) (containers s) with
  | Some sc => (inr (map snd (filter (since_ok (la_since args)) (c_logs sc))), s)
  | None => (inl (no_such (id c)), s)
  end.

Definition regular_image_get (url : string) (s : state)
    : (APIError + Image) * state :=
  match Dict.get url (images s) with
  | Some im => (inr im, s)
  | None => (inl (ImageNotFound ("image not known: " ++ url)), s)
  end.

Definition regular_image_pull (url : string) (auth : option (string * string))
    (s : state) : (APIError + Image) * state :=
  match Dict.get url (registry s) with
  | Some im => (inr im, with_images (Dict.set url im (images s)) s)
  | None => (inl (ImageNotFound ("image not known: " ++ url)), s)
  end.

Definition regular_login (user password reg : string) (s : state)
    : (APIError + unit) * state :=
  (inr tt, s).

Definition regular_run (args : RunArgs) (s : state)
    : (RunError + Container) * state :=
  let c := mkContainer (next_id s) "running" None None in
  (inr c,
   mkState (mkC c [] :: containers s) (images s) (registry s) (faults s)
     (next_id s ++ "0")).

(** The engine without faults. *)
Definition steady_client : PodmanClient state :=
  mkPodmanClient state regular_exists regular_get regular_run regular_stop
    regular_remove regular_logs regular_image_get regular_image_pull
    regular_login.

(** The engine that follows its script of faults. *)
Definition run (args : RunArgs) (s : state) : (RunError + Container) * state :=
  match faults s with
  | Some err :: rest =>
      (inl (RunAPIError err),
       mkState (containers s) (images s) (registry s) rest (next_id s))
  | None :: rest =>
      regular_run args
        (mkState (containers s) (images s) (registry s) rest (next_id s))
  | [] => regular_run args s
  end.

Definition client : PodmanClient state :=
  mkPodmanClient state
    (fun cid => answer (regular_exists cid))
    (fun cid => answer (regular_get cid))
    run
    (fun c => answer (regular_stop c))
    (fun c => answer (regular_remove c))
    (fun c args => answer (regular_logs c args))
    (fun url => answer (regular_image_get url))
    (fun url auth => answer (regular_image_pull url auth))
    (fun user password reg => answer (regular_login user password reg)).

(** The values of [dateutil.parser.parse] on the timestamps of the
    examples. *)
Definition parse (ts : string) : option datetime :=
  if String.eqb ts "2023-05-01T10:00:00Z" then Some 1682935200000000%Z
  else if String.eqb ts "2023-05-01T10:00:05Z" then Some 1682935205000000%Z
  else if String.eqb ts "2023-05-01T10:00:07Z" then Some 1682935207000000%Z
  else if String.eqb ts "1969-12-31T23:59:50Z" then Some (-10000000)%Z
  else if String.eqb ts "1969-12-31T23:59:59Z" then Some (-1000000)%Z
  else None.

(** A stand-in for the way Python prints a list of strings. *)
Definition repr_command (command : list string) : string :=
  "[" ++ String.concat ", " command ++ "]".

Definition world (s : state) : World state :=
  mkWorld s [] None None (mkFileSystem None 1000 [] []).

End Sim.

(** The states of a container that [get_status] recognizes. *)
Definition recognized_states : list string :=
  ["exited"; "stopped"; "running"; "stopping"; "created"; "paused";
   "restarting"; "removing"; "dead"; "configured"; "unknown"].

(** ** The vocabulary of the properties *)

(** The key [_get_ports] gives a port. *)
Definition port_key (port : Z) : string := Py.str_int port ++ "/tcp".

Definition add_port (acc : Dict.t PyVal) (p : PyVal * Z) : Dict.t PyVal :=
  let (_, port) := p in Dict.set (Py.str_int port ++ "/tcp") (PInt port) acc.

(** The entry [_create_auth_key] makes for a credential. *)
Definition auth_entry (cred : Credential) : PyVal :=
  PDict [("auth", PStr (PyStr.b64encode (username cred ++ ":" ++ secret cred)))].

(** The entry the JSON document at [path] records for registry [r] under
    "auths". *)
Definition recorded (f : FileSystem) (path r : string) : option PyVal :=
  match Dict.get path (files f) with
  | Some (Some (PDict d)) =>
      match Dict.get "auths" d with
      | Some (PDict auths) => Dict.get r auths
      | _ => None
      end
  | _ => None
  end.

(** The file at [path] is absent, or it holds a JSON object whose "auths",
    if it has one, is an object. *)
Definition auth_file_usable (f : FileSystem) (path : string) : Prop :=
  path_exists f path = false
  \/ exists d,
       Dict.get path (files f) = Some (Some (PDict d))
       /\ (Dict.mem "auths" d = false
           \/ exists auths, Dict.get "auths" d = Some (PDict auths)).

(** The document [_write_auth_json] leaves in the file when it starts from
    the JSON object [d]. *)
Definition merged_auths (registry_ : string) (cred : Credential)
    (d : Dict.t PyVal) (auths : Dict.t PyVal) : PyVal :=
  PDict (Dict.set "auths" (PDict (Dict.set registry_ (auth_entry cred) auths)) d).

(** The timestamp the loop of [update_logs] takes from a line, and the
    payload it forwards, if the line has one. *)
Definition line_timestamp (logline : string) : string :=
  fst (PyStr.split1 " "%char (PyStr.strip logline)).

Definition line_payload (logline : string) : option string :=
  snd (PyStr.split1 " "%char (PyStr.strip logline)).

(** The writes of the loop over [lines]. *)
Fixpoint forwarded (lines : list string) : list Event :=
  match lines with
  | [] => []
  | logline :: rest =>
      match line_payload logline with
      | Some payload => SinkWrite payload false false :: forwarded rest
      | None => forwarded rest
      end
  end.


(** What [update_logs] has asked of the engine when the container exists. *)
Definition asked (container_id : string) (c : Container) (args : LogArgs)
    : list Event :=
  [Engine (ContainersExists container_id); Engine (ContainersGet container_id);
   Engine (ContainerLogs (id c) args)].

(** An engine nobody else changes: a lookup answers with the container
    asked for, a container reported absent stays absent, and a container is
    absent once it was removed or once [stop] or [remove] did not find it. *)
Record GoneIsGone {E : Type} (client : PodmanClient E) : Prop := {
  get_same_id :
    forall cid e c e',
      containers_get client cid e = (inr c, e') -> id c = cid;
  absent_stays :
    forall cid e e',
      containers_exists client cid e = (inr false, e') ->
      fst (containers_exists client cid e') = inr false;
  removed_is_absent :
    forall c e e',
      container_remove client c e = (inr tt, e') ->
      fst (containers_exists client (id c) e') = inr false;
  unfound_remove_is_absent :
    forall c e m e',
      container_remove client c e = (inl (NotFound m), e') ->
      fst (containers_exists client (id c) e') = inr false;
  unfound_stop_is_absent :
    forall c e m e',
      container_stop client c e = (inl (NotFound m), e') ->
      fst (containers_exists client (id c) e') = inr false
}.



(** The events recorded between two worlds. *)
Definition events_since {E : Type} (w w' : World E) : list Event :=
  skipn (length (trace w)) (trace w').




(** The last event of a trace. *)
Definition ends_with (t : list Event) (ev : Event) : Prop :=
  exists t0, t = (t0 ++ [ev])%list.

(** The built-in errors of Python. *)
Definition is_builtin (e : Exn) : bool :=
  match e with
  | KeyError _ | TypeError | UnicodeEncodeError | AttributeError | OSError
  | JSONDecodeError | ParserError _ => true
  | _ => false
  end.

Definition login_or_pull (c : EngineCall) : bool :=
  match c with
  | Login _ _ _ | ImagesPull _ _ => true
  | _ => false
  end.

(** How [start] may fail: a [ContainerImagePullError] comes after a sink
    line with its text; a [ContainerStartError] comes after a sink line with
    its text, or right after the login call or the pull call that failed. *)
Definition start_failure (e : Exn) (t : list Event) : Prop :=
  match e with
  | ContainerImagePullError msg => ends_with t (SinkWrite msg true true)
  | ContainerStartError msg =>
      ends_with t (SinkWrite msg true true)
      \/ (exists c, login_or_pull c = true /\ ends_with t (Engine c))
  | _ => True
  end.

(** A podman error leaves the engine call that raised it last in the
    trace, and that call satisfies [Q]. *)
Definition after_call (Q : EngineCall -> bool) (R : Exn -> list Event -> Prop)
    (e : Exn) (t : list Event) : Prop :=
  match e with
  | PodmanAPIError _ => exists c, Q c = true /\ ends_with t (Engine c)
  | _ => R e t
  end.

(** How [update_logs] may fail: with a [ContainerUpdateLogsError] right
    after an engine call, or with a built-in error. *)
Definition update_logs_failure (e : Exn) (t : list Event) : Prop :=
  match e with
  | ContainerUpdateLogsError _ => exists c, ends_with t (Engine c)
  | _ => is_builtin e = true
  end.

(** How [cleanup] may fail: with a [ContainerCleanupError] right after an
    engine call, or as [update_logs] does. *)
Definition cleanup_failure (e : Exn) (t : list Event) : Prop :=
  match e with
  | ContainerCleanupError _ => exists c, ends_with t (Engine c)
  | _ => update_logs_failure e t
  end.

Definition any_call (c : EngineCall) : bool := true.

(** What C8 asks of a method run in a world: if it raises, a line was
    written to the sink during the run. *)
Definition error_reaches_sink {E A : Type} (m : M E A) (w : World E) : Prop :=
  forall e w',
    m w = (Raise e, w') ->
    exists lines flush timestamp,
      In (SinkWrite lines flush timestamp) (events_since w w').

Section Vocabulary.

Context {E : Type}.

(** The world after the calls [evs] that left the engine in state [e]. *)
Definition after (w : World E) (e : E) (evs : list Event) : World E :=
  mkWorld e (trace w ++ evs)%list (log_read_at w) (auth_file w) (fs w).

(** The world [get_status] leaves after an existence check and a lookup. *)
Definition inspected (container_id : string) (e : E) (w : World E) : World E :=
  mkWorld e
    (trace w ++ [Engine (ContainersExists container_id);
                 Engine (ContainersGet container_id)])%list
    (log_read_at w) (auth_file w) (fs w).


(** [m] only appends to the trace, and every event it appends
    satisfies [P]. *)
Definition emits (P : Event -> bool) {A : Type} (m : M E A) : Prop :=
  forall w, exists evs,
    trace (snd (m w)) = (trace w ++ evs)%list /\ forallb P evs = true.


(** Whenever [m] raises [e], leaving the trace [t], [R e t] holds. *)
Definition raises_with (R : Exn -> list Event -> Prop) {A : Type}
    (m : M E A) : Prop :=
  forall w e w', m w = (Raise e, w') -> R e (trace w').

(** The [except (ContainerError, ImageNotFound, APIError)] clause of
    [start]. *)
Definition start_handler (e : Exn) : option (M E string) :=
  let handle (text : string) : option (M E string) :=
    Some (let error_message := "Container Start Error: " ++ text in
          LogHandler.write error_message true true ;;
          raise (ContainerStartError error_message)) in
  match e with
  | PodmanAPIError a => handle (api_str a)
  | PodmanContainerError msg => handle msg
  | _ => None
  end.

(** [start] from the pull decision on, once the auth file is located and
    the login is done. *)
Definition start_decided (client : PodmanClient E) (messages : Messages)
    (repr_command : list string -> string) (request : ContainerRequest)
    (pull : bool) : M E string :=
  (if pull then _pull_image client messages request ;; ret tt else ret tt) ;;
  LogHandler.write "Starting Container" true true ;;
  let command := cmdline request in
  LogHandler.write ("Container args " ++ repr_command command) true true ;;
  let pod_args := _load_pod_args request in
  container <-
    (if existsb (fun kv : string * PyVal => Py.str_in (fst kv) run_keywords)
          pod_args
     then raise TypeError
     else
       let args := mkRunArgs (image_url request) command true true true
                     true pod_args in
       call_run args (containers_run client args)) ;;
  LogHandler.write ("Container " ++ id container ++ " is started.")
    true true ;;
  ret (id container).

Definition start_decision (client : PodmanClient E)
    (request : ContainerRequest) : M E bool :=
  if String.eqb (pull_policy request) "Always" then ret true
  else found <- _image_exists client (image_url request) ;;
       ret (negb found).

End Vocabulary.

(** ** The worlds and requests of the examples *)

(** A container that exited with code 3 and left no error text, in the
    engine of the examples. *)
Definition exited_3 : Container := mkContainer "c1" "exited" (Some "") (Some 3%Z).

Definition sim_exited_3 : Sim.state :=
  Sim.mkState [Sim.mkC exited_3 []] [] [] [] "c2".

(** A container in a state no version of the engine documents. *)
Definition hibernating : Container :=
  mkContainer "c1" "hibernating" None None.

Definition sim_hibernating : Sim.state :=
  Sim.mkState [Sim.mkC hibernating []] [] [] [] "c2".

(** A request without an image reference. *)
Definition no_image_request : ContainerRequest :=
  mkContainerRequest "activation-1" "" ["ansible-rulebook"] None [] "Always"
    None [] [] [].

(** A request that asks for ports 5000 and 5001, on two host addresses. *)
Definition two_ports_request : ContainerRequest :=
  mkContainerRequest "activation-1" "registry.example/app:1"
    ["ansible-rulebook"] None
    [(PStr "0.0.0.0", 5000%Z); (PStr "127.0.0.1", 5001%Z)] "IfNotPresent"
    None [] [] [].

(** The same ports, with a "ports" entry among the extra arguments. *)
Definition overridden_ports_request : ContainerRequest :=
  mkContainerRequest "activation-1" "registry.example/app:1"
    ["ansible-rulebook"] None
    [(PStr "0.0.0.0", 5000%Z); (PStr "127.0.0.1", 5001%Z)] "IfNotPresent"
    None [] [] [("ports", PDict [("5000/tcp", PInt 9000)])].

(** An auth file that already records a login to quay.io, and a request
    with a credential for registry.example. *)
Definition auth_path : string := "/run/user/1000/containers/auth.json".

Definition fs_with_quay : FileSystem :=
  mkFileSystem None 1000 ["/run/user/1000/containers"]
    [(auth_path,
      Some (PDict [("auths",
                    PDict [("quay.io", PDict [("auth", PStr "b2xkOnNlY3JldA==")])])]))].

Definition world_with_quay : World Sim.state :=
  mkWorld sim_exited_3 [] None (Some auth_path) fs_with_quay.

Definition alice : Credential := mkCredential "alice" "s3cret".

Definition private_request : ContainerRequest :=
  mkContainerRequest "activation-1" "registry.example/app:1"
    ["ansible-rulebook"] (Some alice) [] "IfNotPresent" None [] [] [].

(** A running container that printed "hello" at 10:00:05 and an empty line
    at 10:00:07, read by a handler whose watermark is 10:00:00. *)
Definition chatty : Container := mkContainer "c1" "running" None None.


Definition sim_chatty : Sim.state :=
  Sim.mkState
    [Sim.mkC chatty
       [(1682935205%Z, "2023-05-01T10:00:05Z hello ");
        (1682935207%Z, "2023-05-01T10:00:07Z ")]]
    [] [] [] "c2".



(** An engine that holds the image of the request. *)
Definition sim_with_image : Sim.state :=
  Sim.mkState [] [("registry.example/app:1", mkImage (Some "sha256:0a1b"))] []
    [] "c2".

(** An engine whose image lookup fails. *)
Definition sim_failing_lookup : Sim.state :=
  Sim.mkState [] [] [] [Some (GenericAPIError "500 Server Error")] "c2".

(** ** More vocabulary: the states [get_status] tells apart *)

Definition finished_states : list string := ["exited"; "stopped"].

Definition running_states : list string := ["running"; "stopping"].

Definition wrong_states : list string :=
  ["paused"; "restarting"; "removing"; "dead"; "configured"; "unknown"].

(** ** More worlds and requests for the examples *)



Definition paused : Container := mkContainer "c1" "paused" (Some "") (Some 0%Z).

Definition sim_paused : Sim.state :=
  Sim.mkState [Sim.mkC paused []] [] [] [] "c2".

(** ** More vocabulary: the log request *)

(** The arguments [update_logs] gives [container.logs] when the watermark of
    the handler is [watermark]. *)
Definition log_args_for (watermark : option datetime) : LogArgs :=
  mkLogArgs true true
    (match watermark with
     | Some T =>
         if Z.eqb (timestamp_int T + 1) 0 then None
         else Some (timestamp_int T + 1)%Z
     | None => None
     end).

(** [ch in s] for a character. *)
Fixpoint has_char (ch : ascii) (s : string) : bool :=
  match s with
  | EmptyString => false
  | String c s' => Ascii.eqb c ch || has_char ch s'
  end.


(** ** More vocabulary: the runtime directory and the auth document *)

(** The runtime directory [_set_auth_json_file] works with:
    [XDG_RUNTIME_DIR], or [/run/user/<uid>] when it is not set. *)
Definition runtime_dir (f : FileSystem) : string :=
  match XDG_RUNTIME_DIR f with
  | Some d => d
  | None => "/run/user/" ++ Py.str_int (uid f)
  end.

(** The value the JSON object in the file at [path] has for the top-level
    key [k]. *)
Definition document_key (f : FileSystem) (path k : string) : option PyVal :=
  match Dict.get path (files f) with
  | Some (Some (PDict d)) => Dict.get k d
  | _ => None
  end.

(** ** More vocabulary: the keys of a dict *)

Definition keys {A : Type} (d : Dict.t A) : list string := map fst d.

(** The keys [_load_pod_args] sets from the fields of the request. *)
Definition field_keys : list string :=
  ["name"; "ports"; "mem_limit"; "mounts"; "environment"].

(** A request whose memory limit is the empty string, and one whose extra
    arguments name the container and repeat a keyword of the run call. *)
Definition empty_limit_request : ContainerRequest :=
  mkContainerRequest "activation-1" "registry.example/app:1"
    ["ansible-rulebook"] None [] "IfNotPresent" (Some "") [] [] [].

Definition renamed_request : ContainerRequest :=
  mkContainerRequest "activation-1" "registry.example/app:1"
    ["ansible-rulebook"] None [] "IfNotPresent" (Some "200m") []
    [("ANSIBLE_DEBUG", PStr "1")]
    [("name", PStr "renamed"); ("network_mode", PStr "host")].

Definition detached_request : ContainerRequest :=
  mkContainerRequest "activation-1" "registry.example/app:1"
    ["ansible-rulebook"] None [] "IfNotPresent" None [] []
    [("detach", PBool false)].

(** [d.update(extra)], item by item. *)
Definition update_all {A : Type} (extra d : Dict.t A) : Dict.t A :=
  fold_left (fun acc (kv : string * A) => Dict.set (fst kv) (snd kv) acc)
    extra d.

(** ** More vocabulary: the events of [start] and of [cleanup] *)

Fixpoint strings_eqb (a b : list string) : bool :=
  match a, b with
  | [], [] => true
  | x :: a', y :: b' => String.eqb x y && strings_eqb a' b'
  | _, _ => false
  end.

(** The [auth_config] that [_pull_image] passes for the credential of the
    request. *)
Definition auth_config_of (request : ContainerRequest)
    : option (string * string) :=
  match credential request with
  | Some cred => Some (username cred, secret cred)
  | None => None
  end.

Definition auth_config_eqb (a b : option (string * string)) : bool :=
  match a, b with
  | Some (u, p), Some (u', p') => String.eqb u u' && String.eqb p p'
  | None, None => true
  | _, _ => false
  end.

(** An event that befits [start] for [request]: a login with the
    credential of the request at the registry of its image; a lookup of
    its image, unless the policy is "Always"; a pull of its image with
    its credential; a run of its image and command, detached, with both
    streams, to be removed at exit; a line written with flush and
    timestamp; the auth file rewritten for a request with a credential.
    No other call on the engine and no other use of the log handler. *)
Definition start_event (request : ContainerRequest) (ev : Event) : bool :=
  match ev with
  | Engine (Login u p r) =>
      match credential request with
      | Some cred =>
          String.eqb u (username cred) && String.eqb p (secret cred)
          && String.eqb r (PyStr.before_slash (image_url request))
      | None => false
      end
  | Engine (ImagesGet image) =>
      String.eqb image (image_url request)
      && negb (String.eqb (pull_policy request) "Always")
  | Engine (ImagesPull image auth) =>
      String.eqb image (image_url request)
      && auth_config_eqb auth (auth_config_of request)
  | Engine (ContainersRun args) =>
      String.eqb (ra_image args) (image_url request)
      && strings_eqb (ra_command args) (cmdline request)
      && ra_stdout args && ra_stderr args && ra_remove args && ra_detach args
  | Engine _ => false
  | SinkWrite _ flush timestamp => flush && timestamp
  | SinkFlush | SinkSetLogReadAt _ => false
  | FileDump _ _ =>
      match credential request with Some _ => true | None => false end
  end.

Definition no_run (ev : Event) : bool :=
  match ev with
  | Engine (ContainersRun _) => false
  | _ => true
  end.

(** An event that befits a method working on the container
    [container_id]: a call about that container, or a use of the log
    handler. *)
Definition about_container (container_id : string) (ev : Event) : bool :=
  match ev with
  | Engine (ContainersExists c) | Engine (ContainersGet c)
  | Engine (ContainerStop c) | Engine (ContainerRemove c)
  | Engine (ContainerLogs c _) => String.eqb c container_id
  | Engine _ => false
  | FileDump _ _ => false
  | _ => true
  end.

Definition no_removal (ev : Event) : bool :=
  match ev with
  | Engine (ContainerRemove _) => false
  | _ => true
  end.

Definition removal_or_line (ev : Event) : bool :=
  match ev with
  | Engine (ContainerRemove _) => true
  | SinkWrite _ _ _ => true
  | _ => false
  end.

Section MoreVocabulary.

Context {E : Type}.

(** [m] never returns: every run of it raises. *)
Definition never_returns {A : Type} (m : M E A) : Prop :=
  forall w, exists e w', m w = (Raise e, w').

(** [m] appends events that satisfy [P], and after them events that
    satisfy [Q]. *)
Definition emits_then (P Q : Event -> bool) {A : Type} (m : M E A) : Prop :=
  forall w, exists evs1 evs2,
    trace (snd (m w)) = (trace w ++ evs1 ++ evs2)%list
    /\ forallb P evs1 = true /\ forallb Q evs2 = true.

End MoreVocabulary.

(** ** The factory of the client and the constructor of the class *)

Section Construction.

Context {E : Type}.

(** [PodmanClient(base_url=url)]: the client, or the text of the
    [ValueError] the constructor raises for a URL it does not accept. *)
Variable new_client : string -> string + PodmanClient E.

(** [client.version()], of which only the error matters. *)
Variable client_version : PodmanClient E -> E -> (APIError + unit) * E.

(** [settings.PODMAN_SOCKET_URL]: a string, or [None]. *)
Variable PODMAN_SOCKET_URL : option string.

Definition get_podman_client : M E (PodmanClient E) :=
  fun w =>
    let connect (podman_url : string) : Outcome (PodmanClient E) * World E :=
      match new_client podman_url with
      | inr c => (Ok c, w)
      | inl msg => (Raise (ContainerEngineInitError msg), w)
      end in
    match PODMAN_SOCKET_URL with
    | Some (String _ _ as podman_url) => connect podman_url
    | _ =>
        let podman_url :=
          if Z.eqb (uid (fs w)) 0 then "unix:///run/podman/podman.sock"
          else
            let xdg_runtime_dir :=
              match XDG_RUNTIME_DIR (fs w) with
              | Some d => d
              | None => "/run/user/" ++ Py.str_int (uid (fs w))
              end in
            "unix://" ++ xdg_runtime_dir ++ "/podman/podman.sock" in
        connect podman_url
    end.

(** The call [self.client.version()] of the constructor: the engine moves
    on, and an error answer is raised. *)
Definition version_call (client : PodmanClient E) : M E unit :=
  fun w =>
    let (r, e') := client_version client (engine w) in
    let w' := mkWorld e' (trace w) (log_read_at w) (auth_file w) (fs w) in
    match r with
    | inr _ => (Ok tt, w')
    | inl err => (Raise (PodmanAPIError err), w')
    end.

(** [self.auth_file = v]. *)
Definition set_auth_file (v : option string) : M E unit :=
  fun w => (Ok tt, mkWorld (engine w) (trace w) (log_read_at w) v (fs w)).

(** [Engine.__init__]: it returns [self.client]; [client] is [None] when
    the argument is left out. *)
Definition __init__ (_activation_id : string)
    (client : option (PodmanClient E)) : M E (PodmanClient E) :=
  try_except
    (self_client <- match client with
                    | Some c => ret c
                    | None => get_podman_client
                    end ;;
     version_call self_client ;;
     set_auth_file None ;;
     ret self_client)
    (fun e =>
       match e with
       | PodmanAPIError a => Some (raise (ContainerEngineInitError (api_str a)))
       | _ => None
       end).

End Construction.

(** The socket of a rootless engine. *)
Definition rootless_socket (f : FileSystem) : string :=
  "unix://" ++ runtime_dir f ++ "/podman/podman.sock".

Definition before_pull (ev : Event) : bool :=
  match ev with
  | Engine (ImagesPull _ _) => false
  | _ => true
  end.

Definition no_file_dump (ev : Event) : bool :=
  match ev with
  | FileDump _ _ => false
  | _ => true
  end.

(** An auth file with a top-level key besides "auths". *)
Definition fs_with_helpers : FileSystem :=
  mkFileSystem None 1000 ["/run/user/1000/containers"]
    [(auth_path,
      Some (PDict [("credHelpers", PDict [("quay.io", PStr "secretservice")]);
                   ("auths", PDict [])]))].

Definition world_with_helpers : World Sim.state :=
  mkWorld sim_exited_3 [] None (Some auth_path) fs_with_helpers.

(** * Properties *)

(** ** The string methods on examples *)

Example strip_line :
  PyStr.strip "  2023-05-01T10:00:00Z hello  " = "2023-05-01T10:00:00Z hello".
Proof. reflexivity. Qed.

Example split1_line :
  PyStr.split1 " "%char "2023-05-01T10:00:00Z hello world"
  = ("2023-05-01T10:00:00Z", Some "hello world").
Proof. reflexivity. Qed.

Example split1_bare : PyStr.split1 " "%char "2023-05-01T10:00:00Z"
  = ("2023-05-01T10:00:00Z", None).
Proof. reflexivity. Qed.

Example b64_user_pass : PyStr.b64encode "user:pass" = "dXNlcjpwYXNz".
Proof. reflexivity. Qed.

Example b64_padding : PyStr.b64encode "a:b1" = "YTpiMQ==" /\ PyStr.b64encode "ab:cd" = "YWI6Y2Q=".
Proof. split; reflexivity. Qed.

Example dirname_auth :
  PyStr.dirname "/run/user/1000/containers/auth.json" = "/run/user/1000/containers".
Proof. reflexivity. Qed.

Example str_int_examples :
  Py.str_int 0 = "0" /\ Py.str_int 137 = "137" /\ Py.str_int (-1) = "-1".
Proof. repeat split; reflexivity. Qed.

(** ** Text *)

Lemma append_assoc (a b c : string) : (a ++ b) ++ c = a ++ (b ++ c).
Proof.
  induction a as [|ch a IH]; simpl; [reflexivity | now rewrite IH].
Qed.

Lemma contains_here (v rest : string) : Py.contains v (v ++ rest).
Proof. exists "", rest. reflexivity. Qed.

Lemma contains_later (v p s : string) : Py.contains v s -> Py.contains v (p ++ s).
Proof.
  intros (pre & post & ->). exists (p ++ pre), post.
  now rewrite append_assoc.
Qed.

Lemma str_in_In (x : string) (l : list string) :
  Py.str_in x l = true <-> In x l.
Proof.
  induction l as [|y l IH]; simpl.
  - split; [discriminate | tauto].
  - destruct (String.eqb_spec x y) as [->|Hne].
    + split; auto.
    + rewrite IH. split; [auto | intros [H|H]; [congruence | exact H]].
Qed.

(** A template whose fields all have a keyword argument formats. *)
Lemma format_total (t : Py.Template) (kw : list (string * string)) :
  (forall n, In n (Py.fields t) -> Py.lookup n kw <> None) ->
  exists s, Py.format t kw = inr s.
Proof.
  induction t as [|p t IH]; intros Hkw; simpl.
  - now exists "".
  - destruct p as [text|n]; simpl in Hkw.
    + destruct (IH Hkw) as [rest ->]. now eexists.
    + destruct (Py.lookup n kw) as [v|] eqn:Hn.
      * destruct IH as [rest ->]; [intros; apply Hkw; now right | now eexists].
      * exfalso. apply (Hkw n); [now left | exact Hn].
Qed.

Lemma format_within (names : list string) (t : Py.Template)
    (kw : list (string * string)) :
  Py.fields_within names t = true ->
  (forall n, In n names -> Py.lookup n kw <> None) ->
  exists s, Py.format t kw = inr s.
Proof.
  intros Hw Hkw. apply format_total. intros n Hn. apply Hkw.
  unfold Py.fields_within in Hw. rewrite forallb_forall in Hw.
  apply str_in_In. now apply Hw.
Qed.

(** The text of a formatted template contains the value of each field the
    template has. *)
Lemma format_contains (t : Py.Template) (kw : list (string * string))
    (n v s : string) :
  Py.has_field n t = true ->
  Py.lookup n kw = Some v ->
  Py.format t kw = inr s ->
  Py.contains v s.
Proof.
  unfold Py.has_field. revert s.
  induction t as [|p t IH]; intros s Hf Hv Hs; simpl in *.
  - discriminate.
  - destruct p as [text|m]; simpl in Hf.
    + destruct (Py.format t kw) as [k|rest] eqn:Hr; [discriminate|].
      injection Hs as <-. apply contains_later. now apply IH.
    + destruct (Py.lookup m kw) as [u|] eqn:Hm; [|discriminate].
      destruct (Py.format t kw) as [k|rest] eqn:Hr; [discriminate|].
      injection Hs as <-.
      destruct (String.eqb_spec n m) as [->|Hne].
      * rewrite Hv in Hm. injection Hm as <-. apply contains_here.
      * apply contains_later. now apply IH.
Qed.

(** ** [get_status] *)

Section StatusFacts.

Context {E : Type}.
Variable client : PodmanClient E.
Variable messages : Messages.

Lemma get_status_inspect (container_id : string) (w : World E) (c : Container)
    (e1 e2 : E) (k : Container -> M E ContainerStatus) :
  containers_exists client container_id (engine w) = (inr true, e1) ->
  containers_get client container_id e1 = (inr c, e2) ->
  (found <- call (ContainersExists container_id)
              (containers_exists client container_id) ;;
   if negb found then
     raise (ContainerNotFoundError
              ("Container id " ++ container_id ++ " not found"))
   else
     container <- call (ContainersGet container_id)
                    (containers_get client container_id) ;;
     k container) w
  = k c (inspected container_id e2 w).
Proof.
  intros Hex Hget. unfold bind, call. rewrite Hex. simpl.
  rewrite Hget. simpl. unfold inspected. now rewrite <- app_assoc.
Qed.


(** C3.  For a container that exists and whose state is none of the
    recognized ones, [get_status] returns (it does not raise) the status
    ERROR, and its message, the formatted POD_UNEXPECTED template, contains
    the state.  The template is that of the [messages] module: its fields
    are the ones [get_status] passes, and it has the field of the state. *)
Theorem get_status_unrecognized_state :
  forall (container_id : string) (w : World E) (c : Container) (e1 e2 : E),
    Py.fields_within ["pod_id"; "pod_state"] (POD_UNEXPECTED messages) = true ->
    Py.has_field "pod_state" (POD_UNEXPECTED messages) = true ->
    containers_exists client container_id (engine w) = (inr true, e1) ->
    containers_get client container_id e1 = (inr c, e2) ->
    ~ In (status c) recognized_states ->
    exists message : string,
      get_status client messages container_id w
      = (Ok (mkContainerStatus ERROR message), inspected container_id e2 w)
      /\ Py.format (POD_UNEXPECTED messages)
           [("pod_id", container_id); ("pod_state", status c)]
         = inr message
      /\ Py.contains (status c) message.
Proof.
  intros container_id w c e1 e2 Hw Hf Hex Hget Hnot.
  assert (Hne : forall s, In s recognized_states ->
                          String.eqb (status c) s = false).
  { intros s Hs. apply String.eqb_neq. intros Heq. apply Hnot. now rewrite Heq. }
  unfold get_status. rewrite (get_status_inspect _ _ _ _ _ _ Hex Hget).
  unfold recognized_states in Hne. cbn [Py.str_in].
  repeat (rewrite Hne by (simpl; tauto)).
  destruct (format_within _ _
              [("pod_id", container_id); ("pod_state", status c)] Hw)
    as [m Hm].
  { intros n [<-|[<-|[]]]; discriminate. }
  exists m. unfold bind, fmt. rewrite Hm.
  split; [reflexivity|]. split; [reflexivity|].
  eapply format_contains; [exact Hf | | exact Hm]; reflexivity.
Qed.

End StatusFacts.


Lemma get_status_unrecognized_state_witness :
  exists message : string,
    get_status Sim.client spec_messages "c1" (Sim.world sim_hibernating)
    = (Ok (mkContainerStatus ERROR message),
       inspected "c1" sim_hibernating (Sim.world sim_hibernating))
    /\ Py.format (POD_UNEXPECTED spec_messages)
         [("pod_id", "c1"); ("pod_state", status hibernating)]
       = inr message
    /\ Py.contains (status hibernating) message.
Proof.
  apply (get_status_unrecognized_state Sim.client spec_messages "c1"
           (Sim.world sim_hibernating) hibernating sim_hibernating
           sim_hibernating);
    try reflexivity.
  simpl. intros H.
  repeat (destruct H as [H|H]; [discriminate|]). exact H.
Defined.

(** ** [start] *)

(** C5.  With an empty image reference, [start] raises
    [ContainerStartError("Missing image url")] and leaves the world as it
    found it: no call on the engine is recorded, [self.auth_file] is not
    resolved, nothing is written. *)
Theorem start_missing_image_url :
  forall (E : Type) (client : PodmanClient E) (messages : Messages)
         (repr_command : list string -> string)
         (request : ContainerRequest) (w : World E),
    image_url request = "" ->
    start client messages repr_command request w
    = (Raise (ContainerStartError "Missing image url"), w).
Proof.
  intros E client messages repr_command request w Hurl.
  unfold start. rewrite Hurl. reflexivity.
Qed.

Lemma start_missing_image_url_witness :
  start Sim.client spec_messages Sim.repr_command no_image_request
    (Sim.world sim_exited_3)
  = (Raise (ContainerStartError "Missing image url"), Sim.world sim_exited_3).
Proof.
  apply (start_missing_image_url Sim.state Sim.client spec_messages
           Sim.repr_command no_image_request (Sim.world sim_exited_3)).
  reflexivity.
Defined.

(** ** Dicts *)

Lemma dict_get_set_same {A : Type} (k : string) (v : A) (d : Dict.t A) :
  Dict.get k (Dict.set k v d) = Some v.
Proof.
  unfold Dict.get.
  induction d as [|[k' v'] d IH]; simpl.
  - now rewrite String.eqb_refl.
  - destruct (String.eqb k k') eqn:Hk; simpl.
    + now rewrite String.eqb_refl.
    + now rewrite Hk.
Qed.

Lemma dict_get_set_other {A : Type} (k k' : string) (v : A) (d : Dict.t A) :
  k <> k' -> Dict.get k (Dict.set k' v d) = Dict.get k d.
Proof.
  intros Hne. unfold Dict.get.
  induction d as [|[k2 v2] d IH]; simpl.
  - apply String.eqb_neq in Hne. now rewrite Hne.
  - destruct (String.eqb k' k2) eqn:Hk; simpl.
    + apply String.eqb_eq in Hk. subst k2.
      apply String.eqb_neq in Hne. now rewrite Hne.
    + destruct (String.eqb k k2); [reflexivity | exact IH].
Qed.

Lemma dict_set_In {A : Type} (k k' : string) (v v' : A) (d : Dict.t A) :
  In (k, v) (Dict.set k' v' d) -> (k, v) = (k', v') \/ In (k, v) d.
Proof.
  induction d as [|[k2 v2] d IH]; simpl.
  - intros [H|[]]. left. now symmetry.
  - destruct (String.eqb k' k2); simpl.
    + intros [H|H]; [left; now symmetry | right; now right].
    + intros [H|H]; [right; now left|].
      destruct (IH H) as [H'|H']; [now left | right; now right].
Qed.

Lemma dict_mem_false {A : Type} (k : string) (d : Dict.t A) :
  Dict.mem k d = false -> Dict.get k d = None.
Proof.
  unfold Dict.mem. destruct (Dict.get k d); [discriminate | reflexivity].
Qed.

(** Storing the items of [extra] leaves a key that [extra] does not have as
    it was. *)
Lemma dict_update_other {A : Type} (k : string) (extra d : Dict.t A) :
  Dict.mem k extra = false ->
  Dict.get k
    (fold_left (fun acc (kv : string * A) => Dict.set (fst kv) (snd kv) acc)
       extra d)
  = Dict.get k d.
Proof.
  revert d. induction extra as [|[k' v'] extra IH]; intros d Hk; simpl.
  - reflexivity.
  - unfold Dict.mem, Dict.get in Hk. simpl in Hk.
    destruct (String.eqb k k') eqn:Hkk; [discriminate|].
    rewrite IH by exact Hk.
    apply dict_get_set_other. now apply String.eqb_neq.
Qed.

(** ** The port map *)

Lemma length_of_append (a b : string) :
  String.length (a ++ b) = (String.length a + String.length b)%nat.
Proof.
  induction a as [|x a IH]; simpl; [reflexivity | now rewrite IH].
Qed.

Lemma append_inj_l (a b c : string) : a ++ c = b ++ c -> a = b.
Proof.
  revert b. induction a as [|x a IH]; intros [|y b] H; simpl in H.
  - reflexivity.
  - exfalso. apply (f_equal String.length) in H. simpl in H.
    rewrite length_of_append in H. lia.
  - exfalso. apply (f_equal String.length) in H. simpl in H.
    rewrite length_of_append in H. lia.
  - injection H as -> H. f_equal. now apply IH.
Qed.

Lemma str_int_inj (p q : Z) : Py.str_int p = Py.str_int q -> p = q.
Proof.
  unfold Py.str_int. intros H.
  apply (f_equal NilEmpty.int_of_string) in H.
  rewrite !NilEmpty.isi in H. injection H as H.
  rewrite <- (DecimalZ.of_to p), <- (DecimalZ.of_to q). now rewrite H.
Qed.

Lemma port_key_inj (p q : Z) : port_key p = port_key q -> p = q.
Proof.
  unfold port_key. intros H. apply str_int_inj. now apply append_inj_l in H.
Qed.

Lemma get_ports_fold (l : list (PyVal * Z)) :
  _get_ports l = fold_left add_port l [].
Proof. reflexivity. Qed.

Lemma fold_ports_lookup (l : list (PyVal * Z)) (acc : Dict.t PyVal)
    (x : PyVal) (port : Z) :
  In (x, port) l ->
  Dict.get (port_key port) (fold_left add_port l acc) = Some (PInt port).
Proof.
  revert acc. induction l as [|[y q] l IH] using rev_ind; intros acc Hin.
  - destruct Hin.
  - rewrite fold_left_app. simpl. fold (port_key q).
    apply in_app_or in Hin.
    destruct (Z.eq_dec q port) as [->|Hne].
    + apply dict_get_set_same.
    + rewrite dict_get_set_other.
      * destruct Hin as [Hin|[Heq|[]]]; [now apply IH | congruence].
      * intros Hk. apply port_key_inj in Hk. congruence.
Qed.

Lemma fold_ports_entries (l : list (PyVal * Z)) (acc : Dict.t PyVal)
    (k : string) (v : PyVal) :
  In (k, v) (fold_left add_port l acc) ->
  In (k, v) acc
  \/ exists x port, In (x, port) l /\ k = port_key port /\ v = PInt port.
Proof.
  revert acc. induction l as [|[y q] l IH]; intros acc Hin; simpl in Hin.
  - now left.
  - destruct (IH _ Hin) as [Hacc|(x & port & Hl & Hk & Hv)].
    + apply dict_set_In in Hacc. destruct Hacc as [Heq|Hacc]; [|now left].
      injection Heq as -> ->. right. exists y, q. split; [now left | now split].
    + right. exists x, port. split; [now right | now split].
Qed.

Lemma fold_ports_first_ignored (l : list (PyVal * Z)) (acc : Dict.t PyVal) :
  fold_left add_port l acc
  = fold_left add_port (map (fun p => (PNone, snd p)) l) acc.
Proof.
  revert acc. induction l as [|[y q] l IH]; intros acc; simpl;
    [reflexivity | apply IH].
Qed.

(** C10, as the code has it.  For a request with ports whose extra
    arguments hold no "ports" entry of their own, the "ports" parameter
    [start] hands to the engine is the dict of [_get_ports]; that dict does
    not depend on the first element of any pair, it maps "<port>/tcp" to
    <port> for the second element of every pair, and it has no other
    entry. *)
Theorem start_parameters_bind_ports_to_themselves :
  forall request : ContainerRequest,
    ports request <> [] ->
    Dict.mem "ports" (extra_args request) = false ->
    Dict.get "ports" (_load_pod_args request)
    = Some (PDict (_get_ports (ports request)))
    /\ _get_ports (ports request)
       = _get_ports (map (fun p => (PNone, snd p)) (ports request))
    /\ (forall (x : PyVal) (port : Z),
          In (x, port) (ports request) ->
          Dict.get (Py.str_int port ++ "/tcp") (_get_ports (ports request))
          = Some (PInt port))
    /\ (forall (k : string) (v : PyVal),
          In (k, v) (_get_ports (ports request)) ->
          exists (x : PyVal) (port : Z),
            In (x, port) (ports request)
            /\ k = Py.str_int port ++ "/tcp" /\ v = PInt port).
Proof.
  intros request Hports Hextra. repeat split.
  - unfold _load_pod_args. rewrite dict_update_other by exact Hextra.
    destruct (ports request) as [|p ps] eqn:Hp; [contradiction|].
    assert (Hset : Dict.get "ports"
                     (Dict.set "ports" (PDict (_get_ports (p :: ps)))
                        [("name", PStr (name request))])
                   = Some (PDict (_get_ports (p :: ps))))
      by apply dict_get_set_same.
    destruct (mem_limit request) as [m|]; [destruct (Py.truthy m)|];
      destruct (mounts request); destruct (env_vars request);
      repeat (rewrite dict_get_set_other by discriminate); exact Hset.
  - rewrite !get_ports_fold. apply fold_ports_first_ignored.
  - intros x port Hin. rewrite get_ports_fold.
    now apply (fold_ports_lookup _ _ x).
  - intros k v Hin. rewrite get_ports_fold in Hin.
    destruct (fold_ports_entries _ _ _ _ Hin) as [[]|H]. exact H.
Qed.

Lemma start_parameters_bind_ports_to_themselves_witness :
  Dict.get "ports" (_load_pod_args two_ports_request)
  = Some (PDict [("5000/tcp", PInt 5000); ("5001/tcp", PInt 5001)]).
Proof.
  destruct (start_parameters_bind_ports_to_themselves two_ports_request)
    as [H _]; [discriminate | reflexivity | exact H].
Defined.

(** C10, as stated, fails: the ports of this request are not empty, and the
    start parameters bind port 5000 to 9000 and do not publish 5001. *)
Lemma start_parameters_ports_overridden :
  ports overridden_ports_request <> []
  /\ Dict.get "ports" (_load_pod_args overridden_ports_request)
     = Some (PDict [("5000/tcp", PInt 9000)])
  /\ Dict.get "ports" (_load_pod_args overridden_ports_request)
     <> Some (PDict (_get_ports (ports overridden_ports_request))).
Proof.
  split; [discriminate|]. split; [reflexivity | discriminate].
Qed.

(** ** The auth file *)

Ltac break_match :=
  match goal with
  | |- context [match ?x with _ => _ end] => destruct x eqn:?
  | H : context [match ?x with _ => _ end] |- _ => destruct x eqn:?
  end.

Ltac tidy :=
  repeat match goal with
         | H : (_, _) = (_, _) |- _ => injection H; clear H; intros; subst
         | H : Ok _ = Ok _ |- _ => injection H; clear H; intros; subst
         | H : Some _ = Some _ |- _ => injection H; clear H; intros; subst
         | H : inr _ = inr _ |- _ => injection H; clear H; intros; subst
         | H : inl _ = inl _ |- _ => injection H; clear H; intros; subst
         end.

Ltac crunch := repeat (tidy; simpl in *; try congruence; break_match).

Section AuthFacts.

Context {E : Type}.

Lemma path_exists_file (f : FileSystem) (path : string) (doc : option PyVal) :
  Dict.get path (files f) = Some doc -> path_exists f path = true.
Proof.
  intros H. unfold path_exists, Dict.mem. rewrite H. apply orb_true_r.
Qed.

Lemma path_absent_file (f : FileSystem) (path : string) :
  path_exists f path = false -> Dict.get path (files f) = None.
Proof.
  unfold path_exists, Dict.mem. intros H. apply orb_false_elim in H.
  destruct H as [_ H]. destruct (Dict.get path (files f)); [discriminate|auto].
Qed.

Lemma recorded_after_dump (f : FileSystem) (path registry_ : string)
    (cred : Credential) (d auths : Dict.t PyVal) :
  let f' := dump_file path (merged_auths registry_ cred d auths) f in
  recorded f' path registry_ = Some (auth_entry cred)
  /\ (forall r, r <> registry_ -> recorded f' path r = Dict.get r auths).
Proof.
  unfold recorded, dump_file, merged_auths. cbn [files].
  rewrite dict_get_set_same, dict_get_set_same. split.
  - apply dict_get_set_same.
  - intros r Hr. now apply dict_get_set_other.
Qed.

(** C9.  When [self.auth_file] is set and the request has a credential,
    every run of [_write_auth_json] that completes leaves a JSON document
    that records, under "auths", the base64 of "user:secret" for the
    registry of the image, and records for every other registry exactly
    what the file recorded before.  The run completes when the credential is
    ASCII and the file is absent or holds a JSON object whose "auths", if
    any, is an object. *)
Theorem write_auth_json_merges :
  forall (request : ContainerRequest) (w : World E) (path : string)
         (cred : Credential),
    auth_file w = Some path ->
    credential request = Some cred ->
    let registry_ := PyStr.before_slash (image_url request) in
    (forall w' : World E,
       _write_auth_json request w = (Ok tt, w') ->
       recorded (fs w') path registry_ = Some (auth_entry cred)
       /\ (forall r : string,
             r <> registry_ -> recorded (fs w') path r = recorded (fs w) path r))
    /\ (PyStr.is_ascii (username cred ++ ":" ++ secret cred) = true ->
        auth_file_usable (fs w) path ->
        exists w' : World E, _write_auth_json (E:=E) request w = (Ok tt, w')).
Proof.
  intros request w path cred Hpath Hcred registry_. split.
  - intros w'. unfold _write_auth_json, bind, get_auth_file, os_path_exists,
      json_load, json_dump, lift, ret.
    rewrite Hpath, Hcred. unfold _create_auth_key. fold registry_.
    fold (auth_entry cred).
    destruct (path_exists (fs w) path) eqn:Hex.
    + destruct (Dict.get path (files (fs w))) as [[doc|]|] eqn:Hdoc;
        try discriminate.
      destruct doc as [| | | | |d]; simpl; try discriminate.
      * crunch.
      * crunch.
      * destruct (Dict.mem "auths" d) eqn:Hmem; simpl;
          destruct (PyStr.is_ascii _); simpl; try discriminate.
        -- destruct (Dict.get "auths" d) as [[| | | | |auths]|] eqn:Hauths;
             simpl; try discriminate.
           intros H. injection H as <-. cbn [fs].
           destruct (recorded_after_dump (fs w) path registry_ cred d auths)
             as [H1 H2].
           split; [exact H1|]. intros r Hr.
           transitivity (Dict.get r auths); [exact (H2 r Hr)|].
           unfold recorded. now rewrite Hdoc, Hauths.
        -- rewrite dict_get_set_same. simpl.
           intros H. injection H as <-. cbn [fs].
           destruct (recorded_after_dump (fs w) path registry_ cred
                       (Dict.set "auths" (PDict []) d) [])
             as [H1 H2].
           split; [exact H1|]. intros r Hr.
           transitivity (Dict.get r (@nil (string * PyVal)));
             [exact (H2 r Hr)|].
           unfold recorded. rewrite Hdoc.
           now rewrite (dict_mem_false _ _ Hmem).
    + simpl. destruct (PyStr.is_ascii _); simpl; try discriminate.
      intros H. injection H as <-. cbn [fs].
      destruct (recorded_after_dump (fs w) path registry_ cred
                  [("auths", PDict [])] [])
        as [H1 H2].
      split; [exact H1|]. intros r Hr.
      transitivity (Dict.get r (@nil (string * PyVal))); [exact (H2 r Hr)|].
      unfold recorded. now rewrite (path_absent_file _ _ Hex).
  - intros Hascii Husable.
    unfold _write_auth_json, bind, get_auth_file, os_path_exists,
      json_load, json_dump, lift, ret.
    rewrite Hpath, Hcred. unfold _create_auth_key. rewrite Hascii.
    destruct Husable as [Hex|(d & Hdoc & Hauths)].
    + rewrite Hex. simpl. eexists. reflexivity.
    + rewrite (path_exists_file _ _ _ Hdoc), Hdoc. simpl.
      destruct Hauths as [Hmem|(auths & Hauths)].
      * rewrite Hmem. simpl. rewrite dict_get_set_same. simpl.
        eexists. reflexivity.
      * assert (Hmem : Dict.mem "auths" d = true)
          by (unfold Dict.mem; now rewrite Hauths).
        rewrite Hmem. simpl. rewrite Hauths. simpl. eexists. reflexivity.
Qed.

End AuthFacts.

Lemma write_auth_json_merges_witness :
  let w' := snd (_write_auth_json private_request world_with_quay) in
  recorded (fs w') auth_path "registry.example"
  = Some (PDict [("auth", PStr "YWxpY2U6czNjcmV0")])
  /\ recorded (fs w') auth_path "quay.io"
     = Some (PDict [("auth", PStr "b2xkOnNlY3JldA==")]).
Proof.
  destruct (write_auth_json_merges private_request world_with_quay auth_path
              alice eq_refl eq_refl) as [Hmerge _].
  destruct (Hmerge (snd (_write_auth_json private_request world_with_quay))
              eq_refl) as [Hnew Hold].
  split; [exact Hnew|].
  rewrite Hold; [reflexivity | discriminate].
Defined.

(** ** [update_logs] *)

Section LogFacts.

Context {E : Type}.
Variable client : PodmanClient E.
Variable parse : string -> option datetime.

Lemma update_logs_loop_run (lines : list string) (timestamp : option string)
    (w : World E) :
  update_logs_loop lines timestamp w
  = (Ok (match lines with
         | [] => timestamp
         | _ :: _ => Some (line_timestamp (last lines ""))
         end),
     mkWorld (engine w) (trace w ++ forwarded lines)%list (log_read_at w)
       (auth_file w) (fs w)).
Proof.
  revert timestamp w.
  induction lines as [|logline rest IH]; intros timestamp w.
  - simpl. unfold ret. rewrite app_nil_r. now destruct w.
  - cbn [update_logs_loop forwarded]. unfold bind.
    fold (line_payload logline). fold (line_timestamp logline).
    destruct (line_payload logline) as [payload|].
    + unfold LogHandler.write, emit. rewrite IH. cbn [engine trace log_read_at
        auth_file fs]. rewrite <- app_assoc.
      destruct rest; reflexivity.
    + unfold ret. rewrite IH. destruct rest; reflexivity.
Qed.



End LogFacts.



(** ** [cleanup] *)

Section CleanupFacts.

Context {E : Type}.
Variable client : PodmanClient E.
Variable parse : string -> option datetime.





Hypothesis laws : GoneIsGone client.




End CleanupFacts.

Lemma sim_find_id (cid : string) (cs : list Sim.container) (c : Sim.container) :
  Sim.find cid cs = Some c -> id (Sim.c_view c) = cid.
Proof.
  induction cs as [|c0 cs IH]; simpl; [discriminate|].
  destruct (String.eqb_spec (id (Sim.c_view c0)) cid) as [Heq|Hne].
  - intros H. injection H as <-. exact Heq.
  - exact IH.
Qed.

Lemma sim_find_drop (cid : string) (cs : list Sim.container) :
  Sim.find cid (Sim.drop cid cs) = None.
Proof.
  unfold Sim.drop.
  induction cs as [|c0 cs IH]; simpl; [reflexivity|].
  destruct (String.eqb (id (Sim.c_view c0)) cid) eqn:Heq; simpl.
  - exact IH.
  - now rewrite Heq.
Qed.

(** The engine without faults is one nobody else changes. *)
Lemma sim_steady_laws : GoneIsGone Sim.steady_client.
Proof.
  split; simpl.
  - intros cid e c e'. unfold Sim.regular_get.
    destruct (Sim.find cid (Sim.containers e)) as [sc|] eqn:Hf;
      [|discriminate].
    intros H. injection H as <- _. now apply (sim_find_id _ _ _ Hf).
  - intros cid e e'. unfold Sim.regular_exists.
    intros H. injection H as H <-. now rewrite H.
  - intros c e e'. unfold Sim.regular_remove, Sim.regular_exists.
    destruct (Sim.find (id c) (Sim.containers e)); [|discriminate].
    intros H. injection H as <-. simpl. now rewrite sim_find_drop.
  - intros c e m e'. unfold Sim.regular_remove, Sim.regular_exists.
    destruct (Sim.find (id c) (Sim.containers e)) eqn:Hf; [discriminate|].
    intros H. injection H as _ <-. simpl. now rewrite Hf.
  - intros c e m e'. unfold Sim.regular_stop, Sim.regular_exists.
    destruct (Sim.find (id c) (Sim.containers e)) eqn:Hf; [discriminate|].
    intros H. injection H as _ <-. simpl. now rewrite Hf.
Qed.



(** ** [_pull_image] *)

Section PullFacts.

Context {E : Type}.
Variable client : PodmanClient E.
Variable messages : Messages.


End PullFacts.


(** ** What a method adds to the trace *)

Section TraceFacts.

Context {E : Type}.

Lemma events_since_app (w w' : World E) (evs : list Event) :
  trace w' = (trace w ++ evs)%list -> events_since w w' = evs.
Proof.
  intros H. unfold events_since. rewrite H.
  rewrite skipn_app, skipn_all, Nat.sub_diag. reflexivity.
Qed.

Lemma emits_ret (P : Event -> bool) {A : Type} (a : A) :
  emits P (@ret E A a).
Proof. intros w. exists []. now rewrite app_nil_r. Qed.

Lemma emits_raise (P : Event -> bool) {A : Type} (e : Exn) :
  emits P (@raise E A e).
Proof. intros w. exists []. now rewrite app_nil_r. Qed.

Lemma emits_lift (P : Event -> bool) {A : Type} (o : Outcome A) :
  emits P (@lift E A o).
Proof. intros w. exists []. now rewrite app_nil_r. Qed.

Lemma emits_emit (P : Event -> bool) (ev : Event) :
  P ev = true -> emits P (@emit E ev).
Proof. intros HP w. exists [ev]. simpl. now rewrite HP. Qed.

Lemma emits_call (P : Event -> bool) {A : Type} (c : EngineCall)
    (op : E -> (APIError + A) * E) :
  P (Engine c) = true -> emits P (call c op).
Proof.
  intros HP w. exists [Engine c]. unfold call.
  destruct (op (engine w)) as [[err|a] e']; simpl; now rewrite HP.
Qed.

Lemma emits_call_run (P : Event -> bool) (args : RunArgs)
    (op : E -> (RunError + Container) * E) :
  P (Engine (ContainersRun args)) = true -> emits P (call_run args op).
Proof.
  intros HP w. exists [Engine (ContainersRun args)]. unfold call_run.
  destruct (op (engine w)) as [[[err|msg]|a] e']; simpl; now rewrite HP.
Qed.

Lemma emits_bind (P : Event -> bool) {A B : Type} (m : M E A)
    (k : A -> M E B) :
  emits P m -> (forall a, emits P (k a)) -> emits P (bind m k).
Proof.
  intros Hm Hk w. unfold bind.
  destruct (Hm w) as (evs1 & Ht1 & HP1).
  destruct (m w) as [[a|e] w1]; simpl in Ht1.
  - destruct (Hk a w1) as (evs2 & Ht2 & HP2).
    exists (evs1 ++ evs2)%list. rewrite Ht2, Ht1, app_assoc.
    split; [reflexivity|]. rewrite forallb_app. now rewrite HP1, HP2.
  - exists evs1. now split.
Qed.

Lemma emits_try_except (P : Event -> bool) {A : Type} (body : M E A)
    (handler : Exn -> option (M E A)) :
  emits P body ->
  (forall e h, handler e = Some h -> emits P h) ->
  emits P (try_except body handler).
Proof.
  intros Hm Hh w. unfold try_except.
  destruct (Hm w) as (evs1 & Ht1 & HP1).
  destruct (body w) as [[a|e] w1]; simpl in Ht1.
  - exists evs1. now split.
  - destruct (handler e) as [h|] eqn:He.
    + destruct (Hh e h He w1) as (evs2 & Ht2 & HP2).
      exists (evs1 ++ evs2)%list. rewrite Ht2, Ht1, app_assoc.
      split; [reflexivity|]. rewrite forallb_app. now rewrite HP1, HP2.
    + exists evs1. now split.
Qed.

Lemma emits_fmt (P : Event -> bool) (t : Py.Template)
    (kw : list (string * string)) :
  emits P (@fmt E t kw).
Proof.
  unfold fmt. destruct (Py.format t kw); [apply emits_raise | apply emits_ret].
Qed.




Lemma emits_state_read (P : Event -> bool) {A : Type} (f : World E -> A) :
  emits P (fun w : World E => (Ok (f w), w)).
Proof. intros w. exists []. now rewrite app_nil_r. Qed.

End TraceFacts.

(** Splits a method into its steps and leaves the events to check. *)
Ltac emits_steps :=
  repeat first
    [ apply emits_ret | apply emits_raise | apply emits_lift | apply emits_fmt
    | apply emits_bind; [|intros ?]
    | apply emits_try_except; [|intros ? ? ?]
    | apply emits_emit | apply emits_call | apply emits_call_run
    | match goal with
      | |- emits _ (match ?x with _ => _ end) => destruct x
      | H : match ?e with _ => _ end = Some _ |- _ => destruct e; try discriminate
      | H : Some _ = Some _ |- _ => injection H as <-
      end ].

Section StartFacts.

Context {E : Type}.
Variable client : PodmanClient E.
Variable messages : Messages.
Variable repr_command : list string -> string.

Lemma write_auth_json_emits (P : Event -> bool) (request : ContainerRequest) :
  (forall p v, P (FileDump p v) = true) ->
  emits P (@_write_auth_json E request).
Proof.
  intros HP. unfold _write_auth_json.
  apply emits_bind; [apply (emits_state_read P auth_file)|].
  intros [path|]; [|apply emits_ret].
  apply emits_bind;
    [apply (emits_state_read P (fun w => path_exists (fs w) path))|].
  intros found. apply emits_bind.
  { destruct found; [|apply emits_ret].
    intros w. exists []. unfold json_load.
    destruct (Dict.get path (files (fs w))) as [[v|]|];
      now rewrite app_nil_r. }
  intros auth_dict. emits_steps. apply HP.
Qed.

Lemma pull_image_emits (P : Event -> bool) (request : ContainerRequest) :
  (forall p v, P (FileDump p v) = true) ->
  (forall s, P (SinkWrite s true true) = true) ->
  (forall auth, P (Engine (ImagesPull (image_url request) auth)) = true) ->
  emits P (_pull_image client messages request).
Proof.
  intros Hfile Hsink Hpull. unfold _pull_image, LogHandler.write.
  apply emits_try_except.
  - apply emits_bind; [now apply emits_emit|]. intros _.
    apply emits_bind.
    { destruct (credential request);
        [apply emits_bind;
           [now apply write_auth_json_emits | intros; apply emits_ret]
        | apply emits_ret]. }
    intros kwargs. apply emits_bind; [now apply emits_call|].
    intros image. destruct (negb (image_id_truthy image)); emits_steps.
    apply Hsink.
  - intros e h He. destruct e; try discriminate.
    destruct e; injection He as <-; emits_steps. apply Hsink.
Qed.









End StartFacts.


(** ** Errors and the log sink *)

Section RaiseFacts.

Context {E : Type}.

Lemma rw_weaken (R1 R2 : Exn -> list Event -> Prop) {A : Type} (m : M E A) :
  (forall e t, R1 e t -> R2 e t) -> raises_with R1 m -> raises_with R2 m.
Proof. intros H12 Hm w e w' Hr. apply H12. now apply (Hm w). Qed.

Lemma rw_ret (R : Exn -> list Event -> Prop) {A : Type} (a : A) :
  raises_with R (@ret E A a).
Proof. intros w e w' H. discriminate. Qed.

Lemma rw_emit (R : Exn -> list Event -> Prop) (ev : Event) :
  raises_with R (@emit E ev).
Proof. intros w e w' H. discriminate. Qed.

Lemma rw_state_read (R : Exn -> list Event -> Prop) {A : Type}
    (f : World E -> A) :
  raises_with R (fun w : World E => (Ok (f w), w)).
Proof. intros w e w' H. discriminate. Qed.

Lemma rw_set_log_read_at (R : Exn -> list Event -> Prop) (dt : datetime) :
  raises_with R (@LogHandler.set_log_read_at E dt).
Proof. intros w e w' H. discriminate. Qed.

Lemma rw_raise (R : Exn -> list Event -> Prop) {A : Type} (e : Exn) :
  (forall t, R e t) -> raises_with R (@raise E A e).
Proof. intros HR w e' w' H. injection H as <- <-. apply HR. Qed.

Lemma rw_lift (R : Exn -> list Event -> Prop) {A : Type} (o : Outcome A) :
  (forall e t, o = Raise e -> R e t) -> raises_with R (@lift E A o).
Proof. intros HR w e w' H. unfold lift in H. injection H as H <-. now apply HR. Qed.

Lemma rw_fmt (R : Exn -> list Event -> Prop) (t : Py.Template)
    (kw : list (string * string)) :
  (forall k tr, R (KeyError k) tr) -> raises_with R (@fmt E t kw).
Proof.
  intros HR. unfold fmt.
  destruct (Py.format t kw); [now apply rw_raise | apply rw_ret].
Qed.

Lemma rw_call (R : Exn -> list Event -> Prop) {A : Type} (c : EngineCall)
    (op : E -> (APIError + A) * E) :
  (forall a t, R (PodmanAPIError a) (t ++ [Engine c])%list) ->
  raises_with R (call c op).
Proof.
  intros HR w e w'. unfold call.
  destruct (op (engine w)) as [[err|a] e1]; [|discriminate].
  intros H. injection H as <- <-. apply HR.
Qed.

Lemma rw_call_run (R : Exn -> list Event -> Prop) (args : RunArgs)
    (op : E -> (RunError + Container) * E) :
  (forall a t, R (PodmanAPIError a) (t ++ [Engine (ContainersRun args)])%list) ->
  (forall m t, R (PodmanContainerError m) (t ++ [Engine (ContainersRun args)])%list) ->
  raises_with R (call_run args op).
Proof.
  intros HA HC w e w'. unfold call_run.
  destruct (op (engine w)) as [[[err|msg]|a] e1]; [| |discriminate];
    intros H; injection H as <- <-; [apply HA | apply HC].
Qed.

Lemma rw_bind (R : Exn -> list Event -> Prop) {A B : Type} (m : M E A)
    (k : A -> M E B) :
  raises_with R m -> (forall a, raises_with R (k a)) ->
  raises_with R (bind m k).
Proof.
  intros Hm Hk w e w'. unfold bind.
  destruct (m w) as [[a|e0] w0] eqn:Hmw.
  - apply Hk.
  - intros H. injection H as <- <-. now apply (Hm w).
Qed.

(** [log_handler.write(msg, ...)] and then [raise e]. *)
Lemma rw_write_raise (R : Exn -> list Event -> Prop) {A : Type}
    (msg : string) (f ts : bool) (e : Exn) :
  (forall t, R e (t ++ [SinkWrite msg f ts])%list) ->
  raises_with R (LogHandler.write msg f ts ;; @raise E A e).
Proof.
  intros HR w e' w' H. unfold bind, LogHandler.write, emit, raise in H.
  injection H as <- <-. apply HR.
Qed.

Lemma rw_try_except (R' R : Exn -> list Event -> Prop) {A : Type}
    (body : M E A) (handler : Exn -> option (M E A)) :
  raises_with R' body ->
  (forall e t, handler e = None -> R' e t -> R e t) ->
  (forall e h w e' w',
     handler e = Some h -> R' e (trace w) -> h w = (Raise e', w') ->
     R e' (trace w')) ->
  raises_with R (try_except body handler).
Proof.
  intros Hbody Hnone Hsome w e w'. unfold try_except.
  destruct (body w) as [[a|e0] w0] eqn:Hb; [discriminate|].
  pose proof (Hbody _ _ _ Hb) as HR'.
  destruct (handler e0) as [h|] eqn:Hh.
  - intros H. exact (Hsome _ _ _ _ _ Hh HR' H).
  - intros H. injection H as <- <-. now apply Hnone.
Qed.

End RaiseFacts.

Ltac rw_steps :=
  repeat first
    [ apply rw_ret | apply rw_emit | apply rw_set_log_read_at
    | apply rw_write_raise
    | apply rw_bind; [|intros ?]
    | apply rw_call | apply rw_call_run | apply rw_fmt | apply rw_raise
    | match goal with
      | |- raises_with _ (match ?x with _ => _ end) => destruct x
      end ].

Section ErrorFacts.

Context {E : Type}.
Variable client : PodmanClient E.
Variable messages : Messages.
Variable parse : string -> option datetime.
Variable repr_command : list string -> string.

Lemma ends_with_last (t : list Event) (ev : Event) : ends_with (t ++ [ev]) ev.
Proof. now exists t. Qed.

Lemma write_auth_json_raises_builtin (request : ContainerRequest) :
  raises_with (fun e _ => is_builtin e = true) (@_write_auth_json E request).
Proof.
  unfold _write_auth_json.
  apply rw_bind; [apply (rw_state_read _ auth_file)|].
  intros [path|]; [|apply rw_ret].
  apply rw_bind; [apply (rw_state_read _ (fun w => path_exists (fs w) path))|].
  intros found. apply rw_bind.
  { destruct found; [|apply rw_ret].
    intros w e w'. unfold json_load.
    destruct (Dict.get path (files (fs w))) as [[v|]|]; intros H;
      try discriminate; now injection H as <- _. }
  intros auth_dict.
  assert (Hc : forall k v e, PyObj.contains k v = Raise e -> is_builtin e = true).
  { intros k v e. destruct v; simpl; intros H; try discriminate;
      now injection H as <-. }
  assert (Hs : forall k x v e, PyObj.setitem k x v = Raise e ->
                               is_builtin e = true).
  { intros k x v e. destruct v; simpl; intros H; try discriminate;
      now injection H as <-. }
  assert (Hg : forall k v e, PyObj.getitem k v = Raise e -> is_builtin e = true).
  { intros k v e. destruct v; simpl; try (intros H; now injection H as <-).
    destruct (Dict.get k d); [discriminate|]. intros H. now injection H as <-. }
  apply rw_bind; [apply rw_lift; intros; eapply Hc; eassumption|].
  intros has_auths. apply rw_bind.
  { destruct (negb has_auths);
      [apply rw_lift; intros; eapply Hs; eassumption | apply rw_ret]. }
  intros auth_dict'. apply rw_bind.
  { apply rw_lift. intros e t.
    destruct (credential request) as [cred|];
      [|intros H; now injection H as <-].
    unfold _create_auth_key. destruct (PyStr.is_ascii _); [discriminate|].
    intros H. now injection H as <-. }
  intros key. apply rw_bind; [apply rw_lift; intros; eapply Hg; eassumption|].
  intros auths. apply rw_bind; [apply rw_lift; intros; eapply Hs; eassumption|].
  intros auths'. apply rw_bind; [apply rw_lift; intros; eapply Hs; eassumption|].
  intros final. intros w e w' H. discriminate.
Qed.

Lemma login_failure (request : ContainerRequest) :
  raises_with start_failure (_login client request).
Proof.
  unfold _login. destruct (credential request) as [cred|]; [|apply rw_ret].
  apply (rw_try_except (after_call login_or_pull start_failure)).
  - apply rw_call. intros a t. simpl. eexists. split; [|apply ends_with_last].
    reflexivity.
  - intros e t He. destruct e; try discriminate; auto.
  - intros e h w e' w' He HR Hh. destruct e; try discriminate.
    injection He as <-. injection Hh as <- <-. simpl in *. now right.
Qed.

Lemma pull_image_failure (request : ContainerRequest) :
  raises_with start_failure (_pull_image client messages request).
Proof.
  unfold _pull_image.
  apply (rw_try_except (after_call login_or_pull start_failure)).
  - apply rw_bind; [apply rw_emit|]. intros _. apply rw_bind.
    { destruct (credential request) as [cred|]; [|apply rw_ret].
      apply rw_bind; [|intros; apply rw_ret].
      apply (rw_weaken (fun e _ => is_builtin e = true));
        [|apply write_auth_json_raises_builtin].
      intros e t He. destruct e; try discriminate; exact I. }
    intros kwargs. apply rw_bind.
    { apply rw_call. intros a t. simpl. eexists.
      split; [|apply ends_with_last]. reflexivity. }
    intros image. destruct (negb (image_id_truthy image)); [|apply rw_ret].
    apply rw_bind; [apply rw_fmt; intros; exact I|]. intros msg.
    apply rw_write_raise. intros t. simpl. apply ends_with_last.
  - intros e t He. destruct e; try discriminate; auto.
    destruct e; discriminate.
  - intros e h w e' w' He HR Hh. destruct e; try discriminate.
    destruct e as [m|m|m]; injection He as <-.
    + injection Hh as <- <-. simpl in *. now right.
    + injection Hh as <- <-. simpl in *. now right.
    + unfold bind, LogHandler.write, emit, raise in Hh.
      injection Hh as <- <-. simpl. apply ends_with_last.
Qed.

Lemma start_handler_failure (e : Exn) (h : M E string) :
  start_handler e = Some h -> raises_with start_failure h.
Proof.
  unfold start_handler. intros He.
  destruct e; try discriminate; injection He as <-;
    apply rw_write_raise; intros t; left; apply ends_with_last.
Qed.

Lemma start_body_failure (request : ContainerRequest) :
  raises_with start_failure
    (_set_auth_json_file ;;
     _login client request ;;
     pull <- start_decision client request ;;
     start_decided client messages repr_command request pull).
Proof.
  apply rw_bind; [intros w e w' H; discriminate|]. intros _.
  apply rw_bind; [apply login_failure|]. intros _.
  apply rw_bind.
  { unfold start_decision.
    destruct (String.eqb (pull_policy request) "Always"); [apply rw_ret|].
    apply rw_bind; [|intros; apply rw_ret].
    unfold _image_exists. apply (rw_try_except start_failure).
    - apply rw_bind; [|intros; apply rw_ret].
      apply rw_call. intros; exact I.
    - auto.
    - intros e h w e' w' He _ Hh. destruct e; try discriminate.
      destruct e; try discriminate. injection He as <-. discriminate. }
  intros pull. unfold start_decided.
  apply rw_bind.
  { destruct pull; [|apply rw_ret].
    apply rw_bind; [apply pull_image_failure | intros; apply rw_ret]. }
  intros _. unfold LogHandler.write. rw_steps; intros; exact I.
Qed.

Lemma rw_after_call (R : Exn -> list Event -> Prop) {A : Type}
    (c : EngineCall) (op : E -> (APIError + A) * E) :
  raises_with (after_call any_call R) (call c op).
Proof.
  apply rw_call. intros a t. simpl. exists c.
  split; [reflexivity | apply ends_with_last].
Qed.

Lemma update_logs_failures (container_id : string) :
  raises_with update_logs_failure (update_logs client parse container_id).
Proof.
  unfold update_logs.
  apply (rw_try_except (after_call any_call update_logs_failure)).
  - apply rw_bind; [apply rw_after_call|]. intros found.
    destruct (negb found); [apply rw_emit|].
    apply rw_bind; [apply (rw_state_read _ log_read_at)|]. intros watermark.
    apply rw_bind.
    { destruct watermark; [|apply rw_ret].
      apply rw_bind; [apply (rw_state_read _ log_read_at)|].
      intros [dt|]; [apply rw_ret | apply rw_raise; reflexivity]. }
    intros since. apply rw_bind; [apply rw_after_call|]. intros container.
    apply rw_bind; [apply rw_after_call|]. intros lines.
    apply rw_bind.
    { intros w e w'. rewrite update_logs_loop_run. discriminate. }
    intros [ts|]; [|apply rw_ret].
    destruct (Py.truthy ts); [|apply rw_ret].
    destruct (parse ts) as [dt|]; [|apply rw_raise; reflexivity].
    apply rw_bind; [apply rw_emit | intros; apply rw_set_log_read_at].
  - intros e t He. destruct e; try discriminate; auto.
  - intros e h w e' w' He HR Hh. destruct e; try discriminate.
    injection He as <-. injection Hh as <- <-.
    destruct HR as (c & _ & Hc). now exists c.
Qed.

Lemma _cleanup_failures (container_id : string) :
  raises_with
    (fun e t =>
       match e with
       | ContainerCleanupError _ => exists c, ends_with t (Engine c)
       | _ => False
       end)
    (_cleanup client container_id).
Proof.
  unfold _cleanup.
  apply (rw_try_except (after_call any_call (fun _ _ => False))).
  - apply rw_bind; [apply rw_after_call|]. intros [|]; [|apply rw_ret].
    apply rw_bind; [apply rw_after_call|]. intros container.
    apply (rw_try_except (after_call any_call (fun _ _ => False)));
      [apply rw_after_call | auto |].
    intros e h w e' w' He _ Hh. unfold not_found_handler in He.
    destruct e; try discriminate.
    destruct e; try discriminate. injection He as <-. discriminate.
  - intros e t He HR. destruct e; try discriminate; simpl in *; contradiction.
  - intros e h w e' w' He HR Hh. destruct e; try discriminate.
    injection He as <-. injection Hh as <- <-.
    destruct HR as (c & _ & Hc). now exists c.
Qed.

Lemma cleanup_failures (container_id : string) :
  raises_with cleanup_failure (cleanup client parse container_id).
Proof.
  unfold cleanup.
  apply (rw_try_except (after_call any_call cleanup_failure)).
  - apply rw_bind; [apply rw_after_call|]. intros [|]; [|apply rw_ret].
    apply rw_bind; [apply rw_after_call|]. intros container.
    apply (rw_try_except (after_call any_call cleanup_failure)).
    + apply rw_bind; [apply rw_after_call|]. intros _.
      apply rw_bind.
      { apply (rw_weaken update_logs_failure); [|apply update_logs_failures].
        intros e t. destruct e; simpl; auto; discriminate. }
      intros _. apply rw_bind; [|intros; apply rw_emit].
      eapply rw_weaken; [|apply _cleanup_failures].
      intros e t. destruct e; simpl; auto; contradiction.
    + auto.
    + intros e h w e' w' He _ Hh. unfold not_found_handler in He.
      destruct e; try discriminate.
      destruct e; try discriminate. injection He as <-. discriminate.
  - intros e t He. destruct e; try discriminate; auto.
  - intros e h w e' w' He HR Hh. destruct e; try discriminate.
    injection He as <-. injection Hh as <- <-.
    destruct HR as (c & _ & Hc). now exists c.
Qed.

(** C8, as the code has it.
    - An error of [start] is a [ContainerImagePullError] that follows a sink
      line with its text, or a [ContainerStartError] that follows a sink
      line with its text, or a [ContainerStartError] raised right after the
      login call or the pull call that failed, with no line for it, or the
      [ContainerStartError] for a missing image url, raised before anything
      is done, or an error that is none of the two.
    - [get_status] records engine calls only: nothing reaches the sink,
      whatever it raises.
    - A [ContainerUpdateLogsError] of [update_logs] and a
      [ContainerCleanupError] of [cleanup] are raised right after the engine
      call that failed, with no line for them.
    - When the login fails, [start] raises [ContainerStartError] with the
      text of the engine error right after the login call: nothing is
      written. *)
Theorem errors_and_the_log_sink :
  (forall (request : ContainerRequest) (w : World E) (e : Exn) (w' : World E),
     start client messages repr_command request w = (Raise e, w') ->
     match e with
     | ContainerImagePullError msg =>
         ends_with (trace w') (SinkWrite msg true true)
     | ContainerStartError msg =>
         ends_with (trace w') (SinkWrite msg true true)
         \/ (exists c, login_or_pull c = true /\ ends_with (trace w') (Engine c))
         \/ (msg = "Missing image url" /\ w' = w)
     | _ => True
     end)
  /\ (forall container_id : string,
        emits is_engine_event (get_status client messages container_id))
  /\ (forall (container_id : string) (w : World E) (msg : string)
             (w' : World E),
        update_logs client parse container_id w
        = (Raise (ContainerUpdateLogsError msg), w') ->
        exists c, ends_with (trace w') (Engine c))
  /\ (forall (container_id : string) (w : World E) (msg : string)
             (w' : World E),
        cleanup client parse container_id w
        = (Raise (ContainerCleanupError msg), w') ->
        exists c, ends_with (trace w') (Engine c))
  /\ (forall (request : ContainerRequest) (w : World E) (cred : Credential)
             (err : APIError) (e1 : E),
        image_url request <> "" ->
        credential request = Some cred ->
        let reg := PyStr.before_slash (image_url request) in
        client_login client (username cred) (secret cred) reg (engine w)
        = (inl err, e1) ->
        start client messages repr_command request w
        = (Raise (ContainerStartError (api_str err)),
           after (snd (_set_auth_json_file w)) e1
             [Engine (Login (username cred) (secret cred) reg)])).
Proof.
  split; [|split; [|split; [|split]]].
  - intros request w e w'. unfold start.
    destruct (negb (Py.truthy (image_url request))).
    + intros H. injection H as <- <-. right. right. now split.
    + intros H.
      assert (Hf : start_failure e (trace w')).
      { revert H. apply (rw_try_except start_failure).
        - apply start_body_failure.
        - auto.
        - intros e0 h w0 e' w0' He _ Hh.
          exact (start_handler_failure e0 h He _ _ _ Hh). }
      destruct e; simpl in Hf; auto. destruct Hf as [Hf|Hf]; auto.
  - intros container_id. unfold get_status. emits_steps; reflexivity.
  - intros container_id w msg w' H.
    exact (update_logs_failures container_id _ _ _ H).
  - intros container_id w msg w' H.
    exact (cleanup_failures container_id _ _ _ H).
  - intros request w cred err e1 Hurl Hcred reg Hlogin. unfold start.
    assert (Htruthy : Py.truthy (image_url request) = true)
      by (destruct (image_url request); [contradiction | reflexivity]).
    rewrite Htruthy. cbn [negb].
    unfold try_except at 1, bind at 1, _set_auth_json_file at 1.
    unfold bind at 1, _login. rewrite Hcred.
    unfold try_except, call. cbn [engine trace log_read_at auth_file fs].
    fold reg. rewrite Hlogin. reflexivity.
Qed.

End ErrorFacts.

Lemma errors_and_the_log_sink_witness :
  let result := start Sim.client spec_messages Sim.repr_command
                  two_ports_request (Sim.world sim_failing_lookup) in
  fst result
  = Raise (ContainerStartError "Container Start Error: 500 Server Error")
  /\ (ends_with (trace (snd result))
        (SinkWrite "Container Start Error: 500 Server Error" true true)
      \/ (exists c,
            login_or_pull c = true /\ ends_with (trace (snd result)) (Engine c))
      \/ ("Container Start Error: 500 Server Error" = "Missing image url"
          /\ snd result = Sim.world sim_failing_lookup)).
Proof.
  intros result. split; [reflexivity|].
  destruct (errors_and_the_log_sink Sim.client spec_messages Sim.parse
              Sim.repr_command) as [Hstart _].
  exact (Hstart two_ports_request (Sim.world sim_failing_lookup)
           (ContainerStartError "Container Start Error: 500 Server Error")
           (snd result) eq_refl).
Defined.

(** C8, as stated, fails: [get_status] on a container the engine does not
    have raises [ContainerNotFoundError], and the only event of the run is
    the existence check. *)
Lemma get_status_error_not_in_sink :
  get_status Sim.client spec_messages "gone" (Sim.world sim_exited_3)
  = (Raise (ContainerNotFoundError "Container id gone not found"),
     mkWorld sim_exited_3 [Engine (ContainersExists "gone")] None None
       (mkFileSystem None 1000 [] []))
  /\ ~ error_reaches_sink (get_status Sim.client spec_messages "gone")
         (Sim.world sim_exited_3).
Proof.
  split; [reflexivity|].
  intros H. destruct (H _ _ eq_refl) as (lines & fl & ts & Hin).
  simpl in Hin. destruct Hin as [Hin|[]]. discriminate.
Qed.

(** * More properties of the module *)

(** ** [get_status], the other arms *)

Section MoreStatusFacts.

Context {E : Type}.
Variable client : PodmanClient E.
Variable messages : Messages.

(** X1.  [get_status] raises [ContainerNotFoundError] exactly when the existence
    check answers that the container is absent; it then has made that one
    call and the error names the id. *)
Theorem get_status_not_found_iff :
  forall (container_id : string) (w : World E) (found : bool) (e1 : E),
    containers_exists client container_id (engine w) = (inr found, e1) ->
    (found = false ->
     get_status client messages container_id w
     = (Raise (ContainerNotFoundError
                 ("Container id " ++ container_id ++ " not found")),
        after w e1 [Engine (ContainersExists container_id)]))
    /\ (forall msg w',
          get_status client messages container_id w
          = (Raise (ContainerNotFoundError msg), w') ->
          found = false).
Proof.
  intros container_id w found e1 Hex. split.
  - intros ->. unfold get_status, bind, call. rewrite Hex. reflexivity.
  - intros msg w'. destruct found; [|reflexivity].
    unfold get_status, bind at 1, call at 1. rewrite Hex.
    cbn [negb]. unfold bind at 1, call at 1.
    cbn [engine trace log_read_at auth_file fs].
    destruct (containers_get client container_id e1) as [[err|c] e2];
      [discriminate|].
    unfold bind, fmt, ret, raise.
    repeat match goal with
           | |- context [if ?b then _ else _] => destruct b
           | |- context [match Py.format ?t ?k with _ => _ end] =>
               destruct (Py.format t k)
           end; discriminate.
Qed.

(** X2.  For a container that exists and is "running" or "stopping", [get_status]
    returns RUNNING with the formatted POD_RUNNING message, whatever the exit
    code and the error text of the state say. *)
Theorem get_status_running :
  forall (container_id : string) (w : World E) (c : Container) (e1 e2 : E),
    Py.fields_within ["pod_id"] (POD_RUNNING messages) = true ->
    containers_exists client container_id (engine w) = (inr true, e1) ->
    containers_get client container_id e1 = (inr c, e2) ->
    In (status c) running_states ->
    exists message : string,
      get_status client messages container_id w
      = (Ok (mkContainerStatus RUNNING message), inspected container_id e2 w)
      /\ Py.format (POD_RUNNING messages) [("pod_id", container_id)]
         = inr message.
Proof.
  intros container_id w c e1 e2 Hw Hex Hget Hst.
  unfold get_status. rewrite (get_status_inspect _ _ _ _ _ _ _ Hex Hget).
  destruct (format_within _ _ [("pod_id", container_id)] Hw) as [m Hm].
  { intros n [<-|[]]; discriminate. }
  exists m. split; [|exact Hm].
  destruct Hst as [<-|[<-|[]]]; cbn [Py.str_in String.eqb Ascii.eqb Bool.eqb];
    unfold bind, fmt; rewrite Hm; reflexivity.
Qed.


(** X4.  For a container that exists and is in one of the six states the class
    does not expect ("paused", "restarting", "removing", "dead",
    "configured", "unknown"), [get_status] returns FAILED, and its message,
    the formatted POD_WRONG_STATE template, contains the state. *)
Theorem get_status_wrong_state :
  forall (container_id : string) (w : World E) (c : Container) (e1 e2 : E),
    Py.fields_within ["pod_id"; "pod_state"] (POD_WRONG_STATE messages) = true ->
    Py.has_field "pod_state" (POD_WRONG_STATE messages) = true ->
    containers_exists client container_id (engine w) = (inr true, e1) ->
    containers_get client container_id e1 = (inr c, e2) ->
    In (status c) wrong_states ->
    exists message : string,
      get_status client messages container_id w
      = (Ok (mkContainerStatus FAILED message), inspected container_id e2 w)
      /\ Py.format (POD_WRONG_STATE messages)
           [("pod_id", container_id); ("pod_state", status c)]
         = inr message
      /\ Py.contains (status c) message.
Proof.
  intros container_id w c e1 e2 Hw Hf Hex Hget Hst.
  unfold get_status. rewrite (get_status_inspect _ _ _ _ _ _ _ Hex Hget).
  destruct (format_within _ _
              [("pod_id", container_id); ("pod_state", status c)] Hw)
    as [m Hm].
  { intros n [<-|[<-|[]]]; discriminate. }
  exists m. split; [|split; [exact Hm|]].
  - revert Hm. unfold bind, fmt.
    destruct Hst as [<-|[<-|[<-|[<-|[<-|[<-|[]]]]]]];
      cbn [Py.str_in String.eqb Ascii.eqb Bool.eqb];
      intros Hm; rewrite Hm; reflexivity.
  - eapply format_contains; [exact Hf | | exact Hm]; reflexivity.
Qed.

(** X5.  The status [get_status] returns depends on the state and the exit code
    only: COMPLETED exactly for "exited"/"stopped" with exit code 0, RUNNING
    exactly for "running"/"stopping", ERROR exactly for a state that is not
    recognized, and FAILED in every other case, whatever the error text and
    the templates are. *)
Theorem get_status_classification :
  forall (container_id : string) (w w' : World E) (c : Container) (e1 e2 : E)
         (st : ContainerStatus),
    containers_exists client container_id (engine w) = (inr true, e1) ->
    containers_get client container_id e1 = (inr c, e2) ->
    get_status client messages container_id w = (Ok st, w') ->
    (cs_status st = COMPLETED
     <-> In (status c) finished_states /\ state_exit_code c = Some 0%Z)
    /\ (cs_status st = RUNNING <-> In (status c) running_states)
    /\ (cs_status st = ERROR <-> ~ In (status c) recognized_states)
    /\ (cs_status st = FAILED
        <-> (In (status c) finished_states /\ state_exit_code c <> Some 0%Z)
            \/ status c = "created" \/ In (status c) wrong_states).
Proof.
  intros container_id w w' c e1 e2 st Hex Hget.
  unfold get_status. rewrite (get_status_inspect _ _ _ _ _ _ _ Hex Hget).
  fold finished_states running_states wrong_states.
  assert (Hrec : In (status c) recognized_states
                 <-> In (status c) finished_states
                     \/ In (status c) running_states
                     \/ status c = "created" \/ In (status c) wrong_states).
  { unfold recognized_states, finished_states, running_states, wrong_states.
    simpl. intuition congruence. }
  assert (Hzero : Py.opt_int_eqb (state_exit_code c) 0 = true
                  <-> state_exit_code c = Some 0%Z).
  { destruct (state_exit_code c) as [z|]; simpl.
    - rewrite Z.eqb_eq. split; congruence.
    - split; discriminate. }
  assert (Hdisj1 : In (status c) finished_states ->
                   ~ In (status c) running_states
                   /\ status c <> "created" /\ ~ In (status c) wrong_states).
  { unfold finished_states, running_states, wrong_states. simpl.
    intros [<-|[<-|[]]]; intuition discriminate. }
  assert (Hdisj2 : In (status c) running_states ->
                   status c <> "created" /\ ~ In (status c) wrong_states).
  { unfold running_states, wrong_states. simpl.
    intros [<-|[<-|[]]]; intuition discriminate. }
  assert (Hdisj3 : status c = "created" -> ~ In (status c) wrong_states).
  { unfold wrong_states. simpl. intros ->. intuition discriminate. }
  pose proof (str_in_In (status c) finished_states) as R1.
  pose proof (str_in_In (status c) running_states) as R2.
  pose proof (String.eqb_eq (status c) "created") as R3.
  pose proof (str_in_In (status c) wrong_states) as R4.
  set (P1 := In (status c) finished_states) in *.
  set (P2 := In (status c) running_states) in *.
  set (P3 := status c = "created") in *.
  set (P4 := In (status c) wrong_states) in *.
  set (P0 := In (status c) recognized_states) in *.
  set (Z0 := state_exit_code c = Some 0%Z) in *.
  clearbody P1 P2 P3 P4 P0 Z0.
  unfold bind, fmt, ret, raise.
  destruct (Py.str_in (status c) finished_states);
    [destruct (Py.opt_int_eqb (state_exit_code c) 0)
    |destruct (Py.str_in (status c) running_states);
     [|destruct (String.eqb (status c) "created");
       [|destruct (Py.str_in (status c) wrong_states)]]];
    repeat match goal with
           | |- context [if ?b then _ else _] => destruct b
           | |- context [match Py.format ?t ?k with _ => _ end] =>
               destruct (Py.format t k)
           end;
    intros H; try discriminate; injection H as <- _; cbn [cs_status];
    intuition (try discriminate; try congruence).
Qed.

(** X6.  [get_status] only reads: whatever it returns or raises, it has made the
    existence check, and the lookup after it when the container exists, and
    nothing else; the sink, the watermark, [self.auth_file] and the files
    are as before. *)
Theorem get_status_reads_only :
  forall (container_id : string) (w : World E),
    let w' := snd (get_status client messages container_id w) in
    log_read_at w' = log_read_at w
    /\ auth_file w' = auth_file w
    /\ fs w' = fs w
    /\ (events_since w w' = [Engine (ContainersExists container_id)]
        \/ events_since w w'
           = [Engine (ContainersExists container_id);
              Engine (ContainersGet container_id)]).
Proof.
  intros container_id w.
  assert (Hev : forall w1 evs, trace w1 = (trace w ++ evs)%list ->
                               events_since w w1 = evs).
  { intros w1 evs. apply events_since_app. }
  destruct (get_status client messages container_id w) as [r w1] eqn:Hrun.
  cbv zeta. cbn [snd]. revert Hrun.
  unfold get_status, bind at 1, call at 1.
  destruct (containers_exists client container_id (engine w))
    as [[err|[|]] e1].
  - intros H. injection H as _ <-.
    split; [reflexivity|split; [reflexivity|split; [reflexivity|]]].
    left. now apply Hev.
  - cbn [negb]. unfold bind at 1, call at 1.
    cbn [engine trace log_read_at auth_file fs].
    destruct (containers_get client container_id e1) as [[err|c] e2].
    + intros H. injection H as _ <-.
      split; [reflexivity|split; [reflexivity|split; [reflexivity|]]].
      right. apply Hev. cbn [trace]. now rewrite <- app_assoc.
    + intros H. apply (f_equal snd) in H. cbn [snd] in H.
      assert (Hw1 : w1 = inspected container_id e2 w).
      { rewrite <- H. unfold inspected. rewrite <- app_assoc. cbn [app].
        unfold bind, fmt, ret, raise.
        repeat match goal with
               | |- context [if ?b then _ else _] => destruct b
               | |- context [match Py.format ?t ?k with _ => _ end] =>
                   destruct (Py.format t k)
               end; reflexivity. }
      rewrite Hw1.
      split; [reflexivity|split; [reflexivity|split; [reflexivity|]]].
      right. now apply Hev.
  - intros H. injection H as _ <-.
    split; [reflexivity|split; [reflexivity|split; [reflexivity|]]].
    left. now apply Hev.
Qed.

End MoreStatusFacts.

Lemma get_status_not_found_iff_witness :
  get_status Sim.client spec_messages "gone" (Sim.world sim_exited_3)
  = (Raise (ContainerNotFoundError "Container id gone not found"),
     after (Sim.world sim_exited_3) sim_exited_3
       [Engine (ContainersExists "gone")]).
Proof.
  exact (proj1 (get_status_not_found_iff Sim.client spec_messages "gone"
                  (Sim.world sim_exited_3) false sim_exited_3 eq_refl)
           eq_refl).
Defined.

Lemma get_status_running_witness :
  exists message : string,
    get_status Sim.client spec_messages "c1" (Sim.world sim_chatty)
    = (Ok (mkContainerStatus RUNNING message),
       inspected "c1" sim_chatty (Sim.world sim_chatty))
    /\ Py.format (POD_RUNNING spec_messages) [("pod_id", "c1")] = inr message.
Proof.
  apply (get_status_running Sim.client spec_messages "c1"
           (Sim.world sim_chatty) chatty sim_chatty sim_chatty);
    try reflexivity.
  simpl. auto.
Defined.


Lemma get_status_wrong_state_witness :
  exists message : string,
    get_status Sim.client spec_messages "c1" (Sim.world sim_paused)
    = (Ok (mkContainerStatus FAILED message),
       inspected "c1" sim_paused (Sim.world sim_paused))
    /\ Py.format (POD_WRONG_STATE spec_messages)
         [("pod_id", "c1"); ("pod_state", status paused)]
       = inr message
    /\ Py.contains (status paused) message.
Proof.
  apply (get_status_wrong_state Sim.client spec_messages "c1"
           (Sim.world sim_paused) paused sim_paused sim_paused);
    try reflexivity.
  simpl. auto.
Defined.

Lemma get_status_classification_witness :
  cs_status (mkContainerStatus FAILED "Pod c1 failed with exit code 3.")
  = FAILED
  <-> (In (status exited_3) finished_states
       /\ state_exit_code exited_3 <> Some 0%Z)
      \/ status exited_3 = "created" \/ In (status exited_3) wrong_states.
Proof.
  exact (proj2 (proj2 (proj2
           (get_status_classification Sim.client spec_messages "c1"
              (Sim.world sim_exited_3)
              (inspected "c1" sim_exited_3 (Sim.world sim_exited_3))
              exited_3 sim_exited_3 sim_exited_3
              (mkContainerStatus FAILED "Pod c1 failed with exit code 3.")
              eq_refl eq_refl eq_refl)))).
Defined.

(** ** [update_logs], the other paths *)

Section MoreLogFacts.

Context {E : Type}.
Variable client : PodmanClient E.
Variable parse : string -> option datetime.


Lemma since_args (watermark : option datetime) :
  mkLogArgs true true
    (if since_truthy (match watermark with
                      | Some T => Some (timestamp_int T + 1)%Z
                      | None => None
                      end)
     then match watermark with
          | Some T => Some (timestamp_int T + 1)%Z
          | None => None
          end
     else None)
  = log_args_for watermark.
Proof.
  unfold log_args_for. destruct watermark as [T|]; [|reflexivity]. simpl.
  now destruct (Z.eqb (timestamp_int T + 1) 0).
Qed.

Lemma update_logs_logs_fail (container_id : string) (w : World E)
    (c : Container) (err : APIError) (e1 e2 e3 : E) :
  containers_exists client container_id (engine w) = (inr true, e1) ->
  containers_get client container_id e1 = (inr c, e2) ->
  container_logs client c (log_args_for (log_read_at w)) e2 = (inl err, e3) ->
  update_logs client parse container_id w
  = (Raise (ContainerUpdateLogsError (api_str err)),
     after w e3 (asked container_id c (log_args_for (log_read_at w)))).
Proof.
  intros Hex Hget Hlogs.
  unfold update_logs, try_except, bind, call, LogHandler.get_log_read_at.
  rewrite Hex. cbn [negb engine trace log_read_at auth_file fs].
  destruct (log_read_at w) as [T|] eqn:HT.
  - unfold ret. cbn [engine trace log_read_at auth_file fs].
    rewrite ?HT. rewrite Hget. cbn [engine trace log_read_at auth_file fs].
    rewrite (since_args (Some T)), Hlogs. cbn. unfold after, asked.
    rewrite ?HT, <- !app_assoc. reflexivity.
  - unfold ret. cbn [engine trace log_read_at auth_file fs].
    rewrite Hget. cbn [engine trace log_read_at auth_file fs].
    rewrite (since_args None), Hlogs. cbn. unfold after, asked.
    rewrite ?HT, <- !app_assoc. reflexivity.
Qed.

(** X7.  A container that is gone is not an error for [update_logs]: it writes
    the "not found" line, returns, and asks the engine nothing more; the
    watermark stays as it was. *)
Theorem update_logs_container_gone :
  forall (container_id : string) (w : World E) (e1 : E),
    containers_exists client container_id (engine w) = (inr false, e1) ->
    update_logs client parse container_id w
    = (Ok tt,
       after w e1
         [Engine (ContainersExists container_id);
          SinkWrite ("Container " ++ container_id ++ " not found.") true true]).
Proof.
  intros container_id w e1 Hex.
  unfold update_logs, try_except, bind, call. rewrite Hex. cbn.
  unfold after. now rewrite <- app_assoc.
Qed.


(** X9.  When the existence check, the lookup or the log request fails,
    [update_logs] raises [ContainerUpdateLogsError] with the text of the
    engine error; nothing reaches the sink and the watermark stays as it
    was. *)
Theorem update_logs_engine_failure :
  forall (container_id : string) (w : World E) (err : APIError),
    (forall e1,
       containers_exists client container_id (engine w) = (inl err, e1) ->
       update_logs client parse container_id w
       = (Raise (ContainerUpdateLogsError (api_str err)),
          after w e1 [Engine (ContainersExists container_id)]))
    /\ (forall e1 e2,
          containers_exists client container_id (engine w) = (inr true, e1) ->
          containers_get client container_id e1 = (inl err, e2) ->
          update_logs client parse container_id w
          = (Raise (ContainerUpdateLogsError (api_str err)),
             after w e2
               [Engine (ContainersExists container_id);
                Engine (ContainersGet container_id)]))
    /\ (forall c e1 e2 e3,
          containers_exists client container_id (engine w) = (inr true, e1) ->
          containers_get client container_id e1 = (inr c, e2) ->
          container_logs client c (log_args_for (log_read_at w)) e2
          = (inl err, e3) ->
          update_logs client parse container_id w
          = (Raise (ContainerUpdateLogsError (api_str err)),
             after w e3
               (asked container_id c (log_args_for (log_read_at w))))).
Proof.
  intros container_id w err. split; [|split].
  - intros e1 Hex. unfold update_logs, try_except, bind, call.
    rewrite Hex. reflexivity.
  - intros e1 e2 Hex Hget.
    unfold update_logs, try_except, bind, call, LogHandler.get_log_read_at.
    rewrite Hex. cbn [negb engine trace log_read_at auth_file fs].
    destruct (log_read_at w) as [T|] eqn:HT; unfold ret;
      cbn [engine trace log_read_at auth_file fs]; rewrite ?HT, Hget; cbn;
      unfold after; rewrite ?HT, <- !app_assoc; reflexivity.
  - intros c e1 e2 e3. apply update_logs_logs_fail.
Qed.



End MoreLogFacts.

Lemma update_logs_container_gone_witness :
  update_logs Sim.client Sim.parse "gone" (Sim.world sim_exited_3)
  = (Ok tt,
     mkWorld sim_exited_3
       [Engine (ContainersExists "gone");
        SinkWrite "Container gone not found." true true]
       None None (mkFileSystem None 1000 [] [])).
Proof.
  exact (update_logs_container_gone Sim.client Sim.parse "gone"
           (Sim.world sim_exited_3) sim_exited_3 eq_refl).
Defined.


Lemma update_logs_engine_failure_witness :
  update_logs Sim.client Sim.parse "c1" (Sim.world sim_failing_lookup)
  = (Raise (ContainerUpdateLogsError "500 Server Error"),
     mkWorld (Sim.mkState [] [] [] [] "c2") [Engine (ContainersExists "c1")]
       None None (mkFileSystem None 1000 [] [])).
Proof.
  exact (proj1 (update_logs_engine_failure Sim.client Sim.parse "c1"
                  (Sim.world sim_failing_lookup)
                  (GenericAPIError "500 Server Error"))
           (Sim.mkState [] [] [] [] "c2") eq_refl).
Defined.



(** ** The lines of the log *)

Lemma split1_parts (sep : ascii) (s : string) :
  match snd (PyStr.split1 sep s) with
  | Some rest => s = fst (PyStr.split1 sep s) ++ String sep rest
  | None => s = fst (PyStr.split1 sep s)
  end
  /\ has_char sep (fst (PyStr.split1 sep s)) = false.
Proof.
  induction s as [|c s IH]; simpl; [auto|].
  destruct (Ascii.eqb c sep) eqn:Hc.
  - apply Ascii.eqb_eq in Hc. subst c. simpl. auto.
  - destruct (PyStr.split1 sep s) as [h t]. simpl in *.
    destruct IH as [IH1 IH2]. rewrite Hc, IH2. split; [|reflexivity].
    destruct t; now rewrite <- IH1.
Qed.

Lemma lstrip_head (s : string) :
  PyStr.lstrip s = ""
  \/ exists c r, PyStr.lstrip s = String c r /\ PyStr.isspace c = false.
Proof.
  induction s as [|c s IH]; simpl; [now left|].
  destruct (PyStr.isspace c) eqn:Hc; [exact IH|].
  right. now exists c, s.
Qed.

Lemma strip_head (s : string) :
  PyStr.strip s = ""
  \/ exists c r, PyStr.strip s = String c r /\ PyStr.isspace c = false.
Proof.
  unfold PyStr.strip.
  destruct (lstrip_head s) as [->|(c & r & -> & Hc)]; [now left|].
  right. simpl. rewrite Hc.
  destruct (PyStr.rstrip r); eexists _, _; split; reflexivity || exact Hc.
Qed.

(** X12.  A log line, once stripped, is its timestamp, or its timestamp, one
    space and its payload; the timestamp holds no space, and it is empty
    only for a line that is blank. *)
Theorem log_line_parts :
  forall logline : string,
    match line_payload logline with
    | Some payload =>
        PyStr.strip logline = line_timestamp logline ++ " " ++ payload
    | None => PyStr.strip logline = line_timestamp logline
    end
    /\ has_char " "%char (line_timestamp logline) = false
    /\ (line_timestamp logline = "" <-> PyStr.strip logline = "").
Proof.
  intros logline. unfold line_payload, line_timestamp.
  destruct (split1_parts " "%char (PyStr.strip logline)) as [Hparts Hnone].
  split; [exact Hparts|]. split; [exact Hnone|].
  destruct (strip_head logline) as [->|(c & r & -> & Hc)].
  - simpl. tauto.
  - simpl. destruct (Ascii.eqb c " ") eqn:Hsp.
    + apply Ascii.eqb_eq in Hsp. subst c. discriminate.
    + destruct (PyStr.split1 " " r). simpl. split; discriminate.
Qed.

(** ** [_login] *)

(** X13.  Without a credential [_login] does nothing.  With one it makes a single
    login call, for the registry that is the text of the image reference
    before its first slash (it holds no slash, and the image reference is
    that text or that text, a slash and more); the call's error, if any, is
    raised as [ContainerStartError] with the same text. *)
Theorem login_registry :
  forall (E : Type) (client : PodmanClient E) (request : ContainerRequest)
         (w : World E),
    let reg := PyStr.before_slash (image_url request) in
    (credential request = None -> _login client request w = (Ok tt, w))
    /\ (forall cred answer e1,
          credential request = Some cred ->
          client_login client (username cred) (secret cred) reg (engine w)
          = (answer, e1) ->
          _login client request w
          = (match answer with
             | inr _ => Ok tt
             | inl err => Raise (ContainerStartError (api_str err))
             end,
             after w e1 [Engine (Login (username cred) (secret cred) reg)]))
    /\ has_char "/"%char reg = false
    /\ (image_url request = reg
        \/ exists rest, image_url request = reg ++ "/" ++ rest).
Proof.
  intros E client request w reg. split; [|split; [|split]].
  - intros Hc. unfold _login. now rewrite Hc.
  - intros cred answer e1 Hc Hlogin. unfold _login. rewrite Hc.
    unfold try_except, call. fold reg. rewrite Hlogin.
    destruct answer as [err|[]]; reflexivity.
  - apply split1_parts.
  - unfold reg, PyStr.before_slash.
    destruct (split1_parts "/"%char (image_url request)) as [Hparts _].
    destruct (snd (PyStr.split1 "/" (image_url request))) as [rest|];
      [right; now exists rest | now left].
Qed.

(** ** [_set_auth_json_file] *)

Lemma no_slash_no_head (t : string) :
  has_char "/"%char t = false -> PyStr.up_to_last_slash t = None.
Proof.
  induction t as [|c t IH]; simpl; [reflexivity|].
  intros H. apply orb_false_iff in H. destruct H as [Hc Ht].
  rewrite (IH Ht). now rewrite Hc.
Qed.

Lemma up_to_last_slash_app (p t : string) :
  has_char "/"%char t = false ->
  PyStr.up_to_last_slash (p ++ "/" ++ t) = Some (p ++ "/").
Proof.
  intros Ht. induction p as [|c p IH]; simpl.
  - now rewrite (no_slash_no_head t Ht).
  - simpl in IH. now rewrite IH.
Qed.

Lemma all_slashes_app (p q : string) (c : ascii) :
  Ascii.eqb c "/" = false -> PyStr.all_slashes (p ++ String c q) = false.
Proof.
  intros Hc. induction p as [|a p IH]; simpl.
  - now rewrite Hc.
  - rewrite IH. apply andb_false_r.
Qed.

Lemma rstrip_slashes_app (p : string) (c : ascii) :
  Ascii.eqb c "/" = false ->
  PyStr.rstrip_slashes (p ++ String c "/") = p ++ String c "".
Proof.
  intros Hc. induction p as [|a p IH]; simpl.
  - now rewrite Hc.
  - rewrite IH. destruct p; reflexivity.
Qed.

Lemma dirname_of_auth_file (x : string) :
  PyStr.dirname (x ++ "/containers/auth.json") = x ++ "/containers".
Proof.
  unfold PyStr.dirname.
  change (x ++ "/containers/auth.json")
    with (x ++ ("/containers" ++ ("/" ++ "auth.json"))).
  rewrite <- append_assoc.
  rewrite up_to_last_slash_app by reflexivity.
  change ((x ++ "/containers") ++ "/") with ((x ++ "/containers") ++ "/").
  rewrite append_assoc.
  change ("/containers" ++ "/") with ("/container" ++ String "s" "/").
  rewrite <- append_assoc.
  rewrite all_slashes_app by reflexivity.
  rewrite rstrip_slashes_app by reflexivity.
  now rewrite append_assoc.
Qed.

(** X14.  [_set_auth_json_file] sets [self.auth_file] to
    [<runtime dir>/containers/auth.json] when the directory
    [<runtime dir>/containers] exists, and to [None] when it does not,
    whatever [self.auth_file] was; it touches nothing else. *)
Theorem set_auth_json_file_result :
  forall (E : Type) (w : World E),
    let dir := runtime_dir (fs w) ++ "/containers" in
    _set_auth_json_file w
    = (Ok tt,
       mkWorld (engine w) (trace w) (log_read_at w)
         (if path_exists (fs w) dir
          then Some (runtime_dir (fs w) ++ "/containers/auth.json")
          else None)
         (fs w)).
Proof.
  intros E w dir. unfold _set_auth_json_file.
  fold (runtime_dir (fs w)). now rewrite dirname_of_auth_file.
Qed.

(** ** [_write_auth_json], beyond the merge *)

Section MoreAuthFacts.

Context {E : Type}.

Lemma dict_set_set {A : Type} (k : string) (v v' : A) (d : Dict.t A) :
  Dict.set k v (Dict.set k v' d) = Dict.set k v d.
Proof.
  induction d as [|[k0 v0] d IH]; simpl.
  - now rewrite String.eqb_refl.
  - destruct (String.eqb k k0) eqn:Hk; simpl.
    + now rewrite String.eqb_refl.
    + now rewrite Hk, IH.
Qed.

(** A run of [_write_auth_json] that completes has dumped one document:
    the merge of the credential into the document the file held. *)
Lemma write_auth_json_completed (request : ContainerRequest) (w w' : World E)
    (path : string) :
  auth_file w = Some path ->
  _write_auth_json request w = (Ok tt, w') ->
  exists cred d auths,
    credential request = Some cred
    /\ w' = mkWorld (engine w)
              (trace w
               ++ [FileDump path
                     (merged_auths (PyStr.before_slash (image_url request))
                        cred d auths)])%list
              (log_read_at w) (auth_file w)
              (dump_file path
                 (merged_auths (PyStr.before_slash (image_url request)) cred
                    d auths)
                 (fs w))
    /\ (forall k, k <> "auths" -> Dict.get k d = document_key (fs w) path k).
Proof.
  intros Hpath. unfold _write_auth_json, bind, get_auth_file, os_path_exists,
    json_load, json_dump, lift, ret.
  rewrite Hpath.
  destruct (credential request) as [cred|] eqn:Hcred.
  - unfold _create_auth_key. fold (auth_entry cred).
    destruct (path_exists (fs w) path) eqn:Hex.
    + destruct (Dict.get path (files (fs w))) as [[doc|]|] eqn:Hdoc;
        try discriminate.
      destruct doc as [| | | | |d]; simpl; try discriminate.
      * crunch.
      * crunch.
      * destruct (Dict.mem "auths" d) eqn:Hmem; simpl;
          destruct (PyStr.is_ascii _); simpl; try discriminate.
        -- destruct (Dict.get "auths" d) as [[| | | | |auths]|] eqn:Hauths;
             simpl; try discriminate.
           intros H. injection H as <-. exists cred, d, auths.
           split; [reflexivity|]. split; [now rewrite ?Hpath|].
           intros k _. unfold document_key. now rewrite Hdoc.
        -- rewrite dict_get_set_same. simpl.
           intros H. injection H as <-.
           exists cred, (Dict.set "auths" (PDict []) d), [].
           split; [reflexivity|]. split; [now rewrite ?Hpath|].
           intros k Hk. unfold document_key. rewrite Hdoc.
           now apply dict_get_set_other.
    + simpl. destruct (PyStr.is_ascii _); simpl; try discriminate.
      intros H. injection H as <-.
      exists cred, [("auths", PDict [])], [].
      split; [reflexivity|]. split; [now rewrite ?Hpath|].
      intros k Hk. unfold document_key.
      rewrite (path_absent_file _ _ Hex).
      apply String.eqb_neq in Hk. unfold Dict.get. simpl. now rewrite Hk.
  - destruct (path_exists (fs w) path);
      [destruct (Dict.get path (files (fs w))) as [[doc|]|]|];
      try discriminate; try (destruct doc); simpl; try discriminate; crunch.
Qed.

Lemma bind_leaves_world {A B : Type} (m : M E A) (k : A -> M E B) :
  (forall w, snd (m w) = w) ->
  (forall a w e w', k a w = (Raise e, w') -> w' = w) ->
  forall w e w', bind m k w = (Raise e, w') -> w' = w.
Proof.
  intros Hm Hk w e w'. unfold bind. pose proof (Hm w) as Hw.
  destruct (m w) as [[a|e0] w0]; simpl in Hw; subst w0.
  - apply Hk.
  - intros H. now injection H as _ <-.
Qed.

(** X15.  Without an auth file [_write_auth_json] does nothing; and a run that
    raises, for a credential that is not ASCII or a file that is not a JSON
    object with an object under "auths", raises a built-in error and
    leaves the world, the file included, exactly as it was. *)
Theorem write_auth_json_failure_is_safe :
  forall (request : ContainerRequest) (w : World E),
    (auth_file w = None -> _write_auth_json request w = (Ok tt, w))
    /\ (forall e w',
          _write_auth_json request w = (Raise e, w') ->
          w' = w /\ is_builtin e = true).
Proof.
  intros request w. split.
  - intros Hnone. unfold _write_auth_json, bind, get_auth_file.
    now rewrite Hnone.
  - intros e w' H. split;
      [|exact (write_auth_json_raises_builtin request _ _ _ H)].
    revert w e w' H. unfold _write_auth_json.
    apply bind_leaves_world; [reflexivity|].
    intros [path|]; [|discriminate].
    apply bind_leaves_world; [reflexivity|]. intros found.
    apply bind_leaves_world.
    { intros w. destruct found; [|reflexivity]. unfold json_load.
      now destruct (Dict.get path (files (fs w))) as [[v|]|]. }
    intros auth_dict.
    apply bind_leaves_world; [reflexivity|]. intros has_auths.
    apply bind_leaves_world; [now destruct (negb has_auths)|]. intros d1.
    apply bind_leaves_world; [reflexivity|]. intros key.
    apply bind_leaves_world; [reflexivity|]. intros auths.
    apply bind_leaves_world; [reflexivity|]. intros auths'.
    apply bind_leaves_world; [reflexivity|]. intros d2.
    discriminate.
Qed.

(** X16.  Writing the auth file twice is writing it once: after a run that
    completed, a second run for the same request completes and leaves every
    file as the first run left it. *)
Theorem write_auth_json_idempotent :
  forall (request : ContainerRequest) (w w1 : World E) (path : string),
    auth_file w = Some path ->
    _write_auth_json request w = (Ok tt, w1) ->
    exists w2,
      _write_auth_json request w1 = (Ok tt, w2) /\ fs w2 = fs w1.
Proof.
  intros request w w1 path Hpath Hrun.
  destruct (write_auth_json_completed _ _ _ _ Hpath Hrun)
    as (cred & d & auths & Hcred & -> & _).
  assert (Hascii : PyStr.is_ascii (username cred ++ ":" ++ secret cred) = true).
  { revert Hrun. unfold _write_auth_json, bind, get_auth_file, os_path_exists,
      json_load, json_dump, lift, ret. rewrite Hpath, Hcred.
    unfold _create_auth_key.
    destruct (PyStr.is_ascii _); [reflexivity|].
    destruct (path_exists (fs w) path);
      [destruct (Dict.get path (files (fs w))) as [[doc|]|]|];
      try discriminate; simpl;
      repeat match goal with
             | |- context [match ?x with Ok _ => _ | Raise _ => _ end] =>
                 destruct x
             | |- context [if ?b then _ else _] => destruct b
             end; discriminate. }
  set (reg := PyStr.before_slash (image_url request)) in *.
  set (doc := merged_auths reg cred d auths) in *.
  eexists. split.
  - unfold _write_auth_json, bind, get_auth_file, os_path_exists, json_load,
      json_dump, lift, ret.
    cbn [auth_file fs]. rewrite Hpath, Hcred. unfold _create_auth_key.
    rewrite Hascii. fold reg.
    assert (Hfile : Dict.get path (files (dump_file path doc (fs w)))
                    = Some (Some doc))
      by (unfold dump_file; cbn [files]; apply dict_get_set_same).
    cbn [fs]. rewrite (path_exists_file _ _ _ Hfile). cbn [fs].
    rewrite Hfile.
    unfold doc, merged_auths. cbn [PyObj.contains].
    assert (Hmem : forall x, Dict.mem "auths" (Dict.set "auths" x d) = true).
    { intros x. unfold Dict.mem. now rewrite dict_get_set_same. }
    rewrite Hmem. cbn [negb PyObj.getitem].
    rewrite dict_get_set_same. cbn [PyObj.setitem]. reflexivity.
  - cbn [fs]. unfold dump_file. cbn [files XDG_RUNTIME_DIR uid dirs].
    rewrite !dict_set_set. reflexivity.
Qed.

(** X17.  [_write_auth_json] changes the "auths" key of the document only: every
    other top-level key of the JSON object in the file has afterwards the
    value it had before, and no such key is added. *)
Theorem write_auth_json_keeps_other_keys :
  forall (request : ContainerRequest) (w w' : World E) (path k : string),
    auth_file w = Some path ->
    _write_auth_json request w = (Ok tt, w') ->
    k <> "auths" ->
    document_key (fs w') path k = document_key (fs w) path k.
Proof.
  intros request w w' path k Hpath Hrun Hk.
  destruct (write_auth_json_completed _ _ _ _ Hpath Hrun)
    as (cred & d & auths & _ & -> & Hd).
  unfold document_key at 1. cbn [fs]. unfold dump_file. cbn [files].
  rewrite dict_get_set_same. unfold merged_auths.
  rewrite dict_get_set_other by exact Hk. now apply Hd.
Qed.

End MoreAuthFacts.

Lemma write_auth_json_idempotent_witness :
  let w1 := snd (_write_auth_json private_request world_with_quay) in
  exists w2,
    _write_auth_json private_request w1 = (Ok tt, w2) /\ fs w2 = fs w1.
Proof.
  exact (write_auth_json_idempotent private_request world_with_quay _
           auth_path eq_refl eq_refl).
Defined.

Lemma write_auth_json_keeps_other_keys_witness :
  document_key
    (fs (snd (_write_auth_json private_request world_with_helpers)))
    auth_path "credHelpers"
  = Some (PDict [("quay.io", PStr "secretservice")]).
Proof.
  rewrite (write_auth_json_keeps_other_keys private_request
             world_with_helpers
             (snd (_write_auth_json private_request world_with_helpers))
             auth_path "credHelpers" eq_refl eq_refl);
    [reflexivity | discriminate].
Defined.

(** ** Dicts in insertion order *)

Lemma dict_set_keys {A : Type} (k : string) (v : A) (d : Dict.t A) :
  keys (Dict.set k v d) = if Dict.mem k d then keys d else (keys d ++ [k])%list.
Proof.
  unfold keys, Dict.mem, Dict.get.
  induction d as [|[k' v'] d IH]; simpl; [reflexivity|].
  destruct (String.eqb k k') eqn:Hk; simpl.
  - apply String.eqb_eq in Hk. now subst k'.
  - rewrite IH. now destruct (Py.lookup k d).
Qed.

Lemma dict_mem_keys {A : Type} (k : string) (d : Dict.t A) :
  Dict.mem k d = true <-> In k (keys d).
Proof.
  unfold keys, Dict.mem, Dict.get.
  induction d as [|[k' v'] d IH]; simpl.
  - split; [discriminate | contradiction].
  - destruct (String.eqb k k') eqn:Hk.
    + apply String.eqb_eq in Hk. subst k'. split; auto.
    + apply String.eqb_neq in Hk. rewrite IH. split; [auto|].
      intros [H|H]; [now subst k' | exact H].
Qed.

Lemma dict_set_NoDup {A : Type} (k : string) (v : A) (d : Dict.t A) :
  NoDup (keys d) -> NoDup (keys (Dict.set k v d)).
Proof.
  intros Hd. rewrite dict_set_keys.
  destruct (Dict.mem k d) eqn:Hmem; [exact Hd|].
  apply NoDup_app; [exact Hd | repeat constructor; auto |].
  intros x Hx [<-|[]]. apply dict_mem_keys in Hx. congruence.
Qed.

Lemma dict_set_mem {A : Type} (k k' : string) (v : A) (d : Dict.t A) :
  Dict.mem k (Dict.set k' v d) = String.eqb k k' || Dict.mem k d.
Proof.
  unfold Dict.mem. destruct (String.eqb k k') eqn:Hk.
  - apply String.eqb_eq in Hk. subst k'. now rewrite dict_get_set_same.
  - apply String.eqb_neq in Hk. now rewrite dict_get_set_other.
Qed.

Lemma dict_set_length {A : Type} (k : string) (v : A) (d : Dict.t A) :
  (length (Dict.set k v d) <= S (length d))%nat.
Proof.
  induction d as [|[k' v'] d IH]; simpl; [lia|].
  destruct (String.eqb k k'); simpl; lia.
Qed.

(** ** [_get_ports]: one entry for each port *)

Lemma fold_ports_NoDup (l : list (PyVal * Z)) (acc : Dict.t PyVal) :
  NoDup (keys acc) -> NoDup (keys (fold_left add_port l acc)).
Proof.
  revert acc. induction l as [|[x p] l IH]; intros acc Hacc; simpl;
    [exact Hacc|].
  apply IH. now apply dict_set_NoDup.
Qed.

Lemma fold_ports_length (l : list (PyVal * Z)) (acc : Dict.t PyVal) :
  (length (fold_left add_port l acc) <= length acc + length l)%nat.
Proof.
  revert acc. induction l as [|[x p] l IH]; intros acc; simpl; [lia|].
  specialize (IH (Dict.set (Py.str_int p ++ "/tcp") (PInt p) acc)).
  pose proof (dict_set_length (Py.str_int p ++ "/tcp") (PInt p) acc). lia.
Qed.

Lemma fold_ports_keys (l : list (PyVal * Z)) (acc : Dict.t PyVal) :
  NoDup (map snd l) ->
  (forall p, In p (map snd l) -> Dict.mem (port_key p) acc = false) ->
  keys (fold_left add_port l acc)
  = (keys acc ++ map (fun p => port_key (snd p)) l)%list.
Proof.
  revert acc. induction l as [|[x p] l IH]; intros acc Hnd Hfresh; simpl.
  - now rewrite app_nil_r.
  - simpl in Hnd. inversion Hnd as [|? ? Hp Hl]; subst.
    fold (port_key p). rewrite IH; [| exact Hl |].
    + rewrite dict_set_keys, (Hfresh p) by (now left).
      now rewrite <- app_assoc.
    + intros q Hq. rewrite dict_set_mem.
      rewrite (Hfresh q) by (now right).
      destruct (String.eqb (port_key q) (port_key p)) eqn:Hk; [|reflexivity].
      apply String.eqb_eq, port_key_inj in Hk. now subst q.
Qed.

(** X18.  [_get_ports] gives a dict without repeated keys and with at most one
    entry for each pair; when no port repeats, its keys are the keys of the
    ports in the order of the pairs. *)
Theorem get_ports_one_entry_per_port :
  forall found_ports : list (PyVal * Z),
    NoDup (keys (_get_ports found_ports))
    /\ (length (_get_ports found_ports) <= length found_ports)%nat
    /\ (NoDup (map snd found_ports) ->
        keys (_get_ports found_ports)
        = map (fun p => port_key (snd p)) found_ports).
Proof.
  intros l. rewrite get_ports_fold. repeat split.
  - apply fold_ports_NoDup. constructor.
  - apply (fold_ports_length l []).
  - intros Hnd. now rewrite fold_ports_keys.
Qed.

(** ** [_load_pod_args] *)

Lemma update_all_NoDup {A : Type} (extra d : Dict.t A) :
  NoDup (keys d) -> NoDup (keys (update_all extra d)).
Proof.
  unfold update_all. revert d.
  induction extra as [|[k v] extra IH]; intros d Hd; simpl; [exact Hd|].
  apply IH. now apply dict_set_NoDup.
Qed.

Lemma update_all_mem {A : Type} (k : string) (extra d : Dict.t A) :
  Dict.mem k (update_all extra d) = Dict.mem k extra || Dict.mem k d.
Proof.
  unfold update_all. revert d.
  induction extra as [|[k' v'] extra IH]; intros d; simpl; [reflexivity|].
  rewrite IH, dict_set_mem. unfold Dict.mem at 3, Dict.get. simpl.
  destruct (String.eqb k k'); simpl.
  - apply orb_true_r.
  - reflexivity.
Qed.

Lemma update_all_last {A : Type} (k : string) (v : A) (extra d : Dict.t A) :
  NoDup (keys extra) -> In (k, v) extra ->
  Dict.get k (update_all extra d) = Some v.
Proof.
  unfold update_all. revert d.
  induction extra as [|[k' v'] extra IH]; intros d Hnd Hin; simpl;
    [destruct Hin|].
  simpl in Hnd. inversion Hnd as [|? ? Hk Hrest]; subst.
  destruct Hin as [Heq|Hin].
  - injection Heq as -> ->.
    rewrite dict_update_other; [apply dict_get_set_same|].
    destruct (Dict.mem k extra) eqn:Hmem; [|reflexivity].
    apply dict_mem_keys in Hmem. contradiction.
  - now apply IH.
Qed.

(** The dict [_load_pod_args] has before the extra arguments are stored. *)
Lemma load_pod_args_split (request : ContainerRequest) :
  exists d,
    _load_pod_args request = update_all (extra_args request) d
    /\ NoDup (keys d)
    /\ Dict.get "name" d = Some (PStr (name request))
    /\ (forall k, Dict.mem k d = true -> In k field_keys)
    /\ Dict.get "ports" d
       = match ports request with
         | [] => None
         | _ :: _ => Some (PDict (_get_ports (ports request)))
         end
    /\ Dict.get "mem_limit" d
       = match mem_limit request with
         | Some m => if Py.truthy m then Some (PStr m) else None
         | None => None
         end
    /\ Dict.get "mounts" d
       = match mounts request with
         | [] => None
         | _ :: _ => Some (PList (mounts request))
         end
    /\ Dict.get "environment" d
       = match env_vars request with
         | [] => None
         | _ :: _ => Some (PDict (env_vars request))
         end.
Proof.
  unfold _load_pod_args. fold (@update_all PyVal). eexists.
  split; [reflexivity|].
  destruct (ports request) as [|p ps];
    (destruct (mem_limit request) as [m|]; [destruct (Py.truthy m)|]);
    destruct (mounts request) as [|mt mts];
    destruct (env_vars request) as [|ev evs];
    (split; [repeat constructor; simpl; intuition discriminate|]);
    (split; [reflexivity|]);
    (split; [|repeat split; reflexivity]);
    intros k; unfold Dict.mem, Dict.get, field_keys; simpl;
    repeat match goal with
           | |- context [String.eqb k ?s] =>
               destruct (String.eqb k s) eqn:?H
           end;
    try discriminate; intros _;
    repeat match goal with
           | H : String.eqb k _ = true |- _ => apply String.eqb_eq in H
           end; subst; simpl; auto 10.
Qed.

(** X19.  The dict of [_load_pod_args] has no repeated key; it always has the key
    "name"; and each of its keys is one of "name", "ports", "mem_limit",
    "mounts", "environment" or a key of the extra arguments. *)
Theorem load_pod_args_keys :
  forall request : ContainerRequest,
    NoDup (keys (_load_pod_args request))
    /\ Dict.mem "name" (_load_pod_args request) = true
    /\ (forall k,
          Dict.mem k (_load_pod_args request) = true ->
          In k field_keys \/ Dict.mem k (extra_args request) = true).
Proof.
  intros request.
  destruct (load_pod_args_split request) as (d & -> & Hnd & Hname & Hkeys & _).
  repeat split.
  - now apply update_all_NoDup.
  - rewrite update_all_mem. unfold Dict.mem at 2. rewrite Hname.
    apply orb_true_r.
  - intros k. rewrite update_all_mem. intros H.
    apply orb_true_iff in H. destruct H as [H|H]; [now right|].
    left. now apply Hkeys.
Qed.

(** X20.  An extra argument wins over the field of the request: whatever the
    request says, the dict of [_load_pod_args] has every item of the extra
    arguments, "name" included. *)
Theorem load_pod_args_extra_args_win :
  forall (request : ContainerRequest) (k : string) (v : PyVal),
    NoDup (keys (extra_args request)) ->
    In (k, v) (extra_args request) ->
    Dict.get k (_load_pod_args request) = Some v.
Proof.
  intros request k v Hnd Hin.
  destruct (load_pod_args_split request) as (d & -> & _).
  now apply update_all_last.
Qed.

Lemma load_pod_args_extra_args_win_witness :
  Dict.get "name" (_load_pod_args renamed_request) = Some (PStr "renamed").
Proof.
  apply load_pod_args_extra_args_win.
  - repeat constructor; simpl; intuition discriminate.
  - simpl. auto.
Defined.

(** X21.  A field of the request that is empty is left out, not handed on as an
    empty value: without extra arguments of these names, the dict has
    "ports", "mounts" or "environment" just when the list or dict of the
    request is not empty, and "mem_limit" just when the request has a limit
    that is not the empty string; "name" is the name of the request. *)
Theorem load_pod_args_skips_empty_fields :
  forall request : ContainerRequest,
    (forall k, In k field_keys -> Dict.mem k (extra_args request) = false) ->
    Dict.get "name" (_load_pod_args request) = Some (PStr (name request))
    /\ Dict.get "ports" (_load_pod_args request)
       = match ports request with
         | [] => None
         | _ :: _ => Some (PDict (_get_ports (ports request)))
         end
    /\ Dict.get "mem_limit" (_load_pod_args request)
       = match mem_limit request with
         | Some "" | None => None
         | Some m => Some (PStr m)
         end
    /\ Dict.get "mounts" (_load_pod_args request)
       = match mounts request with
         | [] => None
         | _ :: _ => Some (PList (mounts request))
         end
    /\ Dict.get "environment" (_load_pod_args request)
       = match env_vars request with
         | [] => None
         | _ :: _ => Some (PDict (env_vars request))
         end.
Proof.
  intros request Hextra.
  destruct (load_pod_args_split request)
    as (d & -> & _ & Hname & _ & Hports & Hmem & Hmounts & Henv).
  unfold update_all.
  rewrite !dict_update_other by (apply Hextra; simpl; auto 10).
  repeat split; try assumption.
  rewrite Hmem. destruct (mem_limit request) as [[|c m]|]; reflexivity.
Qed.

Lemma load_pod_args_skips_empty_fields_witness :
  Dict.get "mem_limit" (_load_pod_args empty_limit_request) = None
  /\ Dict.get "environment" (_load_pod_args empty_limit_request) = None.
Proof.
  destruct (load_pod_args_skips_empty_fields empty_limit_request)
    as (_ & _ & Hmem & _ & Henv); [reflexivity|].
  split; [exact Hmem | exact Henv].
Defined.

(** ** The calls of [start] *)

Section MoreTraceFacts.

Context {E : Type}.

Lemma emits_bind_when (P : Event -> bool) {A B : Type} (Q : A -> Prop)
    (m : M E A) (k : A -> M E B) :
  (forall w a w', m w = (Ok a, w') -> Q a) ->
  emits P m -> (forall a, Q a -> emits P (k a)) -> emits P (bind m k).
Proof.
  intros HQ Hm Hk w. unfold bind.
  destruct (Hm w) as (evs1 & Ht1 & HP1).
  destruct (m w) as [[a|e] w1] eqn:Hrun; simpl in Ht1.
  - destruct (Hk a (HQ _ _ _ Hrun) w1) as (evs2 & Ht2 & HP2).
    exists (evs1 ++ evs2)%list. rewrite Ht2, Ht1, app_assoc.
    split; [reflexivity|]. rewrite forallb_app. now rewrite HP1, HP2.
  - exists evs1. now split.
Qed.

Lemma emits_weaken (P Q : Event -> bool) {A : Type} (m : M E A) :
  (forall ev, P ev = true -> Q ev = true) -> emits P m -> emits Q m.
Proof.
  intros HPQ Hm w. destruct (Hm w) as (evs & Ht & HP).
  exists evs. split; [exact Ht|].
  rewrite forallb_forall in *. auto.
Qed.

Lemma set_auth_json_file_emits (P : Event -> bool) :
  emits P (@_set_auth_json_file E).
Proof. intros w. exists []. simpl. now rewrite app_nil_r. Qed.

Lemma bind_ok_inv {A B : Type} (m : M E A) (k : A -> M E B) (w w' : World E)
    (b : B) :
  bind m k w = (Ok b, w') ->
  exists a w1, m w = (Ok a, w1) /\ k a w1 = (Ok b, w').
Proof.
  unfold bind. destruct (m w) as [[a|e] w1]; [|discriminate].
  intros H. now exists a, w1.
Qed.

Lemma never_returns_raise {A : Type} (e : Exn) : never_returns (@raise E A e).
Proof. intros w. now exists e, w. Qed.

Lemma never_returns_bind {A B : Type} (m : M E A) (k : A -> M E B) :
  (forall a, never_returns (k a)) -> never_returns (bind m k).
Proof.
  intros Hk w. unfold bind. destruct (m w) as [[a|e] w1].
  - apply Hk.
  - now exists e, w1.
Qed.

Lemma never_returns_try_except {A : Type} (body : M E A)
    (handler : Exn -> option (M E A)) :
  never_returns body ->
  (forall e h, handler e = Some h -> never_returns h) ->
  never_returns (try_except body handler).
Proof.
  intros Hb Hh w. unfold try_except.
  destruct (Hb w) as (e & w1 & ->).
  destruct (handler e) as [h|] eqn:He.
  - exact (Hh e h He w1).
  - now exists e, w1.
Qed.

Lemma emits_then_left (P Q : Event -> bool) {A : Type} (m : M E A) :
  emits P m -> emits_then P Q m.
Proof.
  intros Hm w. destruct (Hm w) as (evs & Ht & HP).
  exists evs, []. now rewrite app_nil_r.
Qed.

Lemma emits_then_right (P Q : Event -> bool) {A : Type} (m : M E A) :
  emits Q m -> emits_then P Q m.
Proof.
  intros Hm w. destruct (Hm w) as (evs & Ht & HP).
  now exists [], evs.
Qed.

Lemma emits_then_bind_left (P Q : Event -> bool) {A B : Type} (m : M E A)
    (k : A -> M E B) :
  emits P m -> (forall a, emits_then P Q (k a)) -> emits_then P Q (bind m k).
Proof.
  intros Hm Hk w. unfold bind.
  destruct (Hm w) as (evs & Ht & HP).
  destruct (m w) as [[a|e] w1]; simpl in Ht.
  - destruct (Hk a w1) as (evs1 & evs2 & Ht2 & HP1 & HQ2).
    exists (evs ++ evs1)%list, evs2. rewrite Ht2, Ht, <- !app_assoc.
    split; [reflexivity|]. rewrite forallb_app. now rewrite HP, HP1.
  - exists evs, []. now rewrite app_nil_r.
Qed.

Lemma emits_then_bind_right (P Q : Event -> bool) {A B : Type} (m : M E A)
    (k : A -> M E B) :
  emits_then P Q m -> (forall a, emits Q (k a)) -> emits_then P Q (bind m k).
Proof.
  intros Hm Hk w. unfold bind.
  destruct (Hm w) as (evs1 & evs2 & Ht & HP & HQ).
  destruct (m w) as [[a|e] w1]; simpl in Ht.
  - destruct (Hk a w1) as (evs & Ht2 & HQ2).
    exists evs1, (evs2 ++ evs)%list. rewrite Ht2, Ht, <- !app_assoc.
    split; [reflexivity|]. rewrite forallb_app. now rewrite HQ, HQ2.
  - now exists evs1, evs2.
Qed.

Lemma emits_then_try_except (P Q : Event -> bool) {A : Type} (body : M E A)
    (handler : Exn -> option (M E A)) :
  emits_then P Q body ->
  (forall e h, handler e = Some h -> emits Q h) ->
  emits_then P Q (try_except body handler).
Proof.
  intros Hm Hh w. unfold try_except.
  destruct (Hm w) as (evs1 & evs2 & Ht & HP & HQ).
  destruct (body w) as [[a|e] w1]; simpl in Ht.
  - now exists evs1, evs2.
  - destruct (handler e) as [h|] eqn:He; [|now exists evs1, evs2].
    destruct (Hh e h He w1) as (evs & Ht2 & HQ2).
    exists evs1, (evs2 ++ evs)%list. rewrite Ht2, Ht, <- !app_assoc.
    split; [reflexivity|]. rewrite forallb_app. now rewrite HQ, HQ2.
Qed.

End MoreTraceFacts.

Section MoreStartFacts.

Context {E : Type}.
Variable client : PodmanClient E.
Variable messages : Messages.
Variable repr_command : list string -> string.

Lemma strings_eqb_refl (l : list string) : strings_eqb l l = true.
Proof.
  induction l as [|x l IH]; simpl; [reflexivity|].
  now rewrite String.eqb_refl.
Qed.

Lemma auth_config_eqb_refl (a : option (string * string)) :
  auth_config_eqb a a = true.
Proof. destruct a as [[u p]|]; simpl; now rewrite ?String.eqb_refl. Qed.

Lemma login_start_events (request : ContainerRequest) :
  emits (start_event request) (_login client request).
Proof.
  unfold _login. destruct (credential request) as [cred|] eqn:Hcred;
    [|apply emits_ret].
  apply emits_try_except.
  - apply emits_call. simpl. now rewrite Hcred, !String.eqb_refl.
  - intros e h He. destruct e; try discriminate. injection He as <-.
    apply emits_raise.
Qed.

Lemma pull_image_start_events (request : ContainerRequest) :
  emits (start_event request) (_pull_image client messages request).
Proof.
  unfold _pull_image, LogHandler.write. apply emits_try_except.
  - apply emits_bind; [now apply emits_emit|]. intros _.
    apply (emits_bind_when _ (fun kwargs => kwargs = auth_config_of request)).
    + intros w a w'. unfold auth_config_of.
      destruct (credential request) as [cred|].
      * unfold bind, ret. destruct (_write_auth_json request w) as [[[]|e] w1];
          [|discriminate]. intros H. now injection H as <- _.
      * unfold ret. intros H. now injection H as <- _.
    + destruct (credential request) as [cred|] eqn:Hcred; [|apply emits_ret].
      apply emits_bind; [|intros; apply emits_ret].
      apply write_auth_json_emits. intros p v. simpl. now rewrite Hcred.
    + intros kwargs ->. apply emits_bind.
      * apply emits_call. simpl.
        now rewrite String.eqb_refl, auth_config_eqb_refl.
      * intros image. destruct (negb (image_id_truthy image)); emits_steps.
        reflexivity.
  - intros e h He. destruct e; try discriminate.
    destruct e; injection He as <-; emits_steps. reflexivity.
Qed.

(** X22.  [start] talks to the engine about its own request only.  Every call
    it makes is a login with the credential of the request at the registry
    of the image, a lookup of the image (never under the "Always" policy),
    a pull of the image with the credential of the request, or a run of
    the image with the command of the request, detached, with stdout and
    stderr, to be removed at exit.  It asks nothing about existing
    containers, stops and removes none and reads no logs; every line it
    writes is flushed and timestamped; it never flushes the handler on its
    own nor moves the watermark; and it rewrites a file only for a request
    with a credential. *)
Theorem start_engine_calls :
  forall request : ContainerRequest,
    emits (start_event request) (start client messages repr_command request).
Proof.
  intros request. unfold start.
  destruct (negb (Py.truthy (image_url request))); [apply emits_raise|].
  apply emits_try_except.
  - apply emits_bind; [apply set_auth_json_file_emits|]. intros _.
    apply emits_bind; [apply login_start_events|]. intros _.
    apply emits_bind.
    { destruct (String.eqb (pull_policy request) "Always") eqn:Hpolicy;
        [apply emits_ret|].
      apply emits_bind; [|intros; apply emits_ret].
      unfold _image_exists. apply emits_try_except.
      - apply emits_bind; [|intros; apply emits_ret].
        apply emits_call. simpl. now rewrite String.eqb_refl, Hpolicy.
      - intros e h He. destruct e; try discriminate.
        destruct e; try discriminate. injection He as <-. apply emits_ret. }
    intros pull. apply emits_bind.
    { destruct pull; [|apply emits_ret].
      apply emits_bind; [apply pull_image_start_events|].
      intros; apply emits_ret. }
    intros _. unfold LogHandler.write.
    apply emits_bind; [now apply emits_emit|]. intros _.
    apply emits_bind; [now apply emits_emit|]. intros _.
    apply emits_bind.
    { destruct (existsb _ _); [apply emits_raise|].
      apply emits_call_run. simpl.
      now rewrite String.eqb_refl, strings_eqb_refl. }
    intros container.
    apply emits_bind; [now apply emits_emit|]. intros _. apply emits_ret.
  - intros e h He. destruct e; try discriminate; injection He as <-;
      unfold LogHandler.write;
      (apply emits_bind; [now apply emits_emit | intros; apply emits_raise]).
Qed.

(** X23.  A container id that [start] returns is the id of the container the
    run call answered with.  The run call was made for the image and the
    command of the request, detached, with stdout and stderr and removal
    at exit, and with the dict of [_load_pod_args]; the two lines before it
    and the line after it are the last events of [start]. *)
Theorem start_returns_after_run :
  forall (request : ContainerRequest) (w w' : World E) (cid : string),
    start client messages repr_command request w = (Ok cid, w') ->
    let args :=
      mkRunArgs (image_url request) (cmdline request) true true true true
        (_load_pod_args request) in
    (exists t0,
       trace w'
       = (t0 ++ [SinkWrite "Starting Container" true true;
                 SinkWrite ("Container args "
                            ++ repr_command (cmdline request)) true true;
                 Engine (ContainersRun args);
                 SinkWrite ("Container " ++ cid ++ " is started.") true true])
         %list)
    /\ (exists c e0,
          containers_run client args e0 = (inr c, engine w') /\ id c = cid)
    /\ image_url request <> "".
Proof.
  intros request w w' cid Hrun args.
  assert (Hurl : image_url request <> "").
  { revert Hrun. unfold start. destruct (image_url request); easy. }
  assert (Htruthy : Py.truthy (image_url request) = true)
    by (destruct (image_url request); [contradiction | reflexivity]).
  revert Hrun. unfold start. rewrite Htruthy. cbn [negb]. intros Hrun.
  revert Hrun. unfold try_except.
  match goal with
  | |- (match ?body w with _ => _ end) = _ -> _ =>
      destruct (body w) as [[a|e] w4] eqn:Hbody
  end.
  2:{ destruct e; try discriminate; unfold bind, LogHandler.write, emit, raise;
      discriminate. }
  intros H. injection H as -> ->.
  apply bind_ok_inv in Hbody. destruct Hbody as ([] & w1 & Hset & Hbody).
  apply bind_ok_inv in Hbody. destruct Hbody as ([] & w2 & Hlogin & Hbody).
  apply bind_ok_inv in Hbody. destruct Hbody as (pull & w3 & Hdec & Hbody).
  apply bind_ok_inv in Hbody. destruct Hbody as ([] & w4 & Hpull & Hbody).
  revert Hbody. unfold bind, LogHandler.write, emit, ret, raise.
  cbn [engine trace log_read_at auth_file fs].
  destruct (existsb _ _); [discriminate|].
  unfold call_run. cbn [engine trace log_read_at auth_file fs].
  fold args.
  destruct (containers_run client args (engine w4)) as [[[err|msg]|c] e5]
    eqn:Hcall; try discriminate.
  intros H. injection H as <- <-. cbn [engine trace log_read_at].
  repeat split.
  - exists (trace w4). now rewrite <- !app_assoc.
  - now exists c, (engine w4).
  - exact Hurl.
Qed.

End MoreStartFacts.

Section MoreStartFacts2.

Context {E : Type}.
Variable client : PodmanClient E.
Variable messages : Messages.
Variable repr_command : list string -> string.

Lemma never_returns_bind_left {A B : Type} (m : M E A) (k : A -> M E B) :
  never_returns m -> never_returns (bind m k).
Proof.
  intros Hm w. unfold bind. destruct (Hm w) as (e & w1 & ->). now exists e, w1.
Qed.

Lemma repeated_keyword (request : ContainerRequest) (k : string) :
  In k run_keywords ->
  Dict.mem k (extra_args request) = true ->
  existsb (fun kv : string * PyVal => Py.str_in (fst kv) run_keywords)
    (_load_pod_args request) = true.
Proof.
  intros Hk Hextra.
  assert (Hmem : Dict.mem k (_load_pod_args request) = true).
  { destruct (load_pod_args_split request) as (d & -> & _).
    now rewrite update_all_mem, Hextra. }
  apply dict_mem_keys in Hmem. unfold keys in Hmem.
  apply in_map_iff in Hmem. destruct Hmem as ([k' v] & <- & Hin).
  apply existsb_exists. exists (k', v). split; [exact Hin|].
  now apply str_in_In.
Qed.

(** X24.  An extra argument named like one of the keywords [start] itself passes
    to the run call (image, command, stdout, stderr, remove, detach) never
    reaches the engine: [start] makes no run call and returns no container
    id, whatever the engine answers. *)
Theorem start_repeated_keyword :
  forall (request : ContainerRequest) (k : string),
    In k run_keywords ->
    Dict.mem k (extra_args request) = true ->
    never_returns (start client messages repr_command request)
    /\ emits no_run (start client messages repr_command request).
Proof.
  intros request k Hk Hextra.
  pose proof (repeated_keyword request k Hk Hextra) as Hrep.
  unfold start. rewrite Hrep. split.
  - destruct (negb (Py.truthy (image_url request)));
      [apply never_returns_raise|].
    apply never_returns_try_except.
    + do 6 (apply never_returns_bind; intros ?).
      apply never_returns_bind_left, never_returns_raise.
    + intros e h He. destruct e; try discriminate; injection He as <-;
        apply never_returns_bind; intros _; apply never_returns_raise.
  - destruct (negb (Py.truthy (image_url request))); [apply emits_raise|].
    apply emits_try_except.
    + apply emits_bind; [apply set_auth_json_file_emits|]. intros _.
      apply emits_bind.
      { unfold _login. emits_steps; reflexivity. }
      intros _. apply emits_bind.
      { unfold _image_exists. emits_steps; reflexivity. }
      intros pull. apply emits_bind.
      { destruct pull; [|apply emits_ret].
        apply emits_bind; [|intros; apply emits_ret].
        apply pull_image_emits; reflexivity. }
      intros _. unfold LogHandler.write. emits_steps; reflexivity.
    + intros e h He. unfold LogHandler.write in He.
      destruct e; try discriminate; injection He as <-; emits_steps;
        reflexivity.
Qed.

End MoreStartFacts2.

Lemma start_returns_after_run_witness :
  let w := Sim.world sim_with_image in
  let result := start Sim.client spec_messages Sim.repr_command
                  two_ports_request w in
  fst result = Ok "c2"
  /\ exists t0,
       trace (snd result)
       = (t0 ++ [SinkWrite "Starting Container" true true;
                 SinkWrite "Container args [ansible-rulebook]" true true;
                 Engine (ContainersRun
                           (mkRunArgs "registry.example/app:1"
                              ["ansible-rulebook"] true true true true
                              (_load_pod_args two_ports_request)));
                 SinkWrite "Container c2 is started." true true])%list.
Proof.
  intros w result. split; [reflexivity|].
  exact (proj1 (start_returns_after_run Sim.client spec_messages
                  Sim.repr_command two_ports_request w (snd result) "c2"
                  eq_refl)).
Defined.

Lemma start_repeated_keyword_witness :
  never_returns
    (start Sim.client spec_messages Sim.repr_command detached_request)
  /\ emits no_run
       (start Sim.client spec_messages Sim.repr_command detached_request).
Proof.
  apply (start_repeated_keyword Sim.client spec_messages Sim.repr_command
           detached_request "detach").
  - simpl. auto 10.
  - reflexivity.
Defined.

(** ** The calls of [cleanup] and [update_logs] *)

Section MoreCleanupFacts.

Context {E : Type}.
Variable client : PodmanClient E.
Variable parse : string -> option datetime.

Lemma forwarded_lines (P : Event -> bool) (lines : list string) :
  (forall s, P (SinkWrite s false false) = true) ->
  forallb P (forwarded lines) = true.
Proof.
  intros HP. induction lines as [|l lines IH]; simpl; [reflexivity|].
  destruct (line_payload l); simpl; [now rewrite HP|exact IH].
Qed.

Lemma update_logs_loop_emits (P : Event -> bool) (lines : list string)
    (timestamp : option string) :
  (forall s, P (SinkWrite s false false) = true) ->
  emits P (@update_logs_loop E lines timestamp).
Proof.
  intros HP w. exists (forwarded lines). rewrite update_logs_loop_run.
  split; [reflexivity | now apply forwarded_lines].
Qed.

Lemma get_call_answer (Q : Container -> Prop) (container_id : string) :
  (forall e c e', containers_get client container_id e = (inr c, e') -> Q c) ->
  forall (w : World E) c w',
    call (ContainersGet container_id) (containers_get client container_id) w
    = (Ok c, w') ->
    Q c.
Proof.
  intros HQ w c w'. unfold call.
  destruct (containers_get client container_id (engine w)) as [[err|c0] e1]
    eqn:Hget; [discriminate|].
  intros H. injection H as <- _. exact (HQ _ _ _ Hget).
Qed.

Lemma update_logs_emits (P : Event -> bool) (Q : Container -> Prop)
    (container_id : string) :
  (forall e c e', containers_get client container_id e = (inr c, e') -> Q c) ->
  P (Engine (ContainersExists container_id)) = true ->
  P (Engine (ContainersGet container_id)) = true ->
  (forall c args, Q c -> P (Engine (ContainerLogs (id c) args)) = true) ->
  (forall s flush timestamp, P (SinkWrite s flush timestamp) = true) ->
  P SinkFlush = true ->
  (forall dt, P (SinkSetLogReadAt dt) = true) ->
  emits P (update_logs client parse container_id).
Proof.
  intros HQ Hex Hget Hlogs Hsink Hflush Hset. unfold update_logs.
  apply emits_try_except.
  - apply emits_bind; [now apply emits_call|]. intros found.
    destruct (negb found); [apply emits_emit, Hsink|].
    apply emits_bind; [apply (emits_state_read P log_read_at)|].
    intros watermark. apply emits_bind.
    { destruct watermark; [|apply emits_ret].
      apply emits_bind; [apply (emits_state_read P log_read_at)|].
      intros [dt|]; [apply emits_ret | apply emits_raise]. }
    intros since.
    apply (emits_bind_when P Q);
      [now apply get_call_answer | now apply emits_call |].
    intros container Hc.
    apply emits_bind; [apply emits_call; now apply Hlogs|]. intros lines.
    apply emits_bind; [apply update_logs_loop_emits; intros; apply Hsink|].
    intros [ts|]; [|apply emits_ret].
    destruct (Py.truthy ts); [|apply emits_ret].
    destruct (parse ts) as [dt|]; [|apply emits_raise].
    apply emits_bind; [apply emits_emit, Hflush|]. intros _.
    intros w. exists [SinkSetLogReadAt dt]. simpl. now rewrite Hset.
  - intros e h He. destruct e; try discriminate. injection He as <-.
    apply emits_raise.
Qed.

Lemma _cleanup_emits (P : Event -> bool) (Q : Container -> Prop)
    (container_id : string) :
  (forall e c e', containers_get client container_id e = (inr c, e') -> Q c) ->
  P (Engine (ContainersExists container_id)) = true ->
  P (Engine (ContainersGet container_id)) = true ->
  (forall c, Q c -> P (Engine (ContainerRemove (id c))) = true) ->
  emits P (_cleanup client container_id).
Proof.
  intros HQ Hex Hget Hrm. unfold _cleanup. apply emits_try_except.
  - apply emits_bind; [now apply emits_call|]. intros [|]; [|apply emits_ret].
    apply (emits_bind_when P Q);
      [now apply get_call_answer | now apply emits_call |].
    intros container Hc. apply emits_try_except.
    + apply emits_call. now apply Hrm.
    + intros e h He. unfold not_found_handler in He.
      destruct e; try discriminate. destruct e; try discriminate.
      injection He as <-. apply emits_ret.
  - intros e h He. destruct e; try discriminate. injection He as <-.
    apply emits_raise.
Qed.

(** X25.  On an engine whose lookup answers with the container asked for,
    [cleanup] and [update_logs] of a container concern that container
    only: each call they make on the engine is an existence check, a
    lookup, a stop, a removal or a log request for this container id; they
    start nothing, pull nothing, log in nowhere and write no file. *)
Theorem cleanup_only_its_container :
  forall container_id : string,
    (forall cid e c e',
       containers_get client cid e = (inr c, e') -> id c = cid) ->
    emits (about_container container_id) (cleanup client parse container_id)
    /\ emits (about_container container_id)
         (update_logs client parse container_id).
Proof.
  intros container_id Hlaw.
  assert (Hget : forall e c e',
             containers_get client container_id e = (inr c, e') ->
             id c = container_id) by (intros e c e'; apply Hlaw).
  assert (Hlogs : emits (about_container container_id)
                    (update_logs client parse container_id)).
  { apply (update_logs_emits _ (fun c => id c = container_id));
      try reflexivity; try exact Hget; simpl;
      try (now rewrite String.eqb_refl).
    intros c args ->. apply String.eqb_refl. }
  split; [|exact Hlogs].
  unfold cleanup. apply emits_try_except.
  - apply emits_bind;
      [apply emits_call; simpl; apply String.eqb_refl|].
    intros [|]; [|apply emits_ret].
    apply (emits_bind_when _ (fun c => id c = container_id));
      [now apply get_call_answer
      | apply emits_call; simpl; apply String.eqb_refl |].
    intros container Hc. apply emits_try_except.
    + apply emits_bind;
        [apply emits_call; simpl; rewrite Hc; apply String.eqb_refl|].
      intros _. apply emits_bind; [exact Hlogs|]. intros _.
      apply emits_bind; [|intros _; now apply emits_emit].
      apply (_cleanup_emits _ (fun c => id c = container_id));
        try exact Hget; simpl; try (now rewrite String.eqb_refl).
      intros c ->. apply String.eqb_refl.
    + intros e h He. unfold not_found_handler in He.
      destruct e; try discriminate. destruct e; try discriminate.
      injection He as <-. now apply emits_emit.
  - intros e h He. destruct e; try discriminate. injection He as <-.
    apply emits_raise.
Qed.

(** X26.  The removal is the last thing [cleanup] asks of the engine: the events
    of a [cleanup] are a run of events without a removal, followed by
    removals and lines written to the sink only.  So the logs are read, and
    the watermark is moved, before the container is removed, and never
    after. *)
Theorem cleanup_removal_is_last :
  forall container_id : string,
    emits_then no_removal removal_or_line
      (cleanup client parse container_id).
Proof.
  intros container_id. unfold cleanup. apply emits_then_try_except.
  - apply emits_then_bind_left; [now apply emits_call|].
    intros [|]; [|apply emits_then_left, emits_ret].
    apply emits_then_bind_left; [now apply emits_call|]. intros container.
    apply emits_then_try_except.
    + apply emits_then_bind_left; [now apply emits_call|]. intros _.
      apply emits_then_bind_left.
      { apply (update_logs_emits _ (fun _ => True)); auto. }
      intros _. apply emits_then_bind_right; [|intros _; now apply emits_emit].
      unfold _cleanup. apply emits_then_try_except.
      * apply emits_then_bind_left; [now apply emits_call|].
        intros [|]; [|apply emits_then_left, emits_ret].
        apply emits_then_bind_left; [now apply emits_call|]. intros c.
        apply emits_then_right, emits_try_except; [now apply emits_call|].
        intros e h He. unfold not_found_handler in He.
        destruct e; try discriminate. destruct e; try discriminate.
        injection He as <-. apply emits_ret.
      * intros e h He. destruct e; try discriminate. injection He as <-.
        apply emits_raise.
    + intros e h He. unfold not_found_handler in He.
      destruct e; try discriminate. destruct e; try discriminate.
      injection He as <-. now apply emits_emit.
  - intros e h He. destruct e; try discriminate. injection He as <-.
    apply emits_raise.
Qed.

End MoreCleanupFacts.

Lemma cleanup_only_its_container_witness :
  emits (about_container "c1") (cleanup Sim.steady_client Sim.parse "c1")
  /\ emits (about_container "c1")
       (update_logs Sim.steady_client Sim.parse "c1").
Proof.
  apply (cleanup_only_its_container Sim.steady_client Sim.parse "c1").
  exact (get_same_id Sim.steady_client sim_steady_laws).
Defined.

(** ** The factory and the constructor *)

Section ConstructionFacts.

Context {E : Type}.
Variable new_client : string -> string + PodmanClient E.
Variable client_version : PodmanClient E -> E -> (APIError + unit) * E.

Lemma get_podman_client_run (setting : option string) (w : World E) :
  exists url,
    get_podman_client new_client setting w
    = (match new_client url with
       | inr c => Ok c
       | inl msg => Raise (ContainerEngineInitError msg)
       end, w).
Proof.
  unfold get_podman_client.
  destruct setting as [[|ch u]|]; eexists;
    match goal with
    | |- context [new_client ?u] => instantiate (1 := u)
    end; now destruct (new_client _).
Qed.

(** X27.  [get_podman_client] builds one client and changes nothing.  A socket
    URL in the settings that is not empty is the URL of the client,
    whoever runs the server; without one, root gets the system socket
    whatever [XDG_RUNTIME_DIR] says, and any other user gets the socket
    under the runtime directory in which [_set_auth_json_file] looks for
    the auth file.  A URL the client refuses raises
    [ContainerEngineInitError] with the text of the refusal. *)
Theorem get_podman_client_socket :
  forall (setting : option string) (w : World E),
    exists url,
      get_podman_client new_client setting w
      = (match new_client url with
         | inr c => Ok c
         | inl msg => Raise (ContainerEngineInitError msg)
         end, w)
      /\ (forall u, setting = Some u -> u <> "" -> url = u)
      /\ (setting = None \/ setting = Some "" ->
          (uid (fs w) = 0%Z -> url = "unix:///run/podman/podman.sock")
          /\ (uid (fs w) <> 0%Z -> url = rootless_socket (fs w))).
Proof.
  intros setting w. unfold get_podman_client, rootless_socket, runtime_dir.
  set (local := if Z.eqb (uid (fs w)) 0 then "unix:///run/podman/podman.sock"
                else _).
  assert (Hlocal :
            (uid (fs w) = 0%Z -> local = "unix:///run/podman/podman.sock")
            /\ (uid (fs w) <> 0%Z ->
                local = "unix://"
                        ++ match XDG_RUNTIME_DIR (fs w) with
                           | Some d => d
                           | None => "/run/user/" ++ Py.str_int (uid (fs w))
                           end ++ "/podman/podman.sock")).
  { unfold local. destruct (Z.eqb_spec (uid (fs w)) 0) as [Hz|Hz];
      split; intros H; try reflexivity; contradiction. }
  clearbody local.
  destruct setting as [[|ch u]|].
  - exists local. split; [now destruct (new_client local)|].
    split; [intros u' H; injection H as <-; contradiction|].
    intros _. exact Hlocal.
  - exists (String ch u). split; [now destruct (new_client _)|].
    split; [intros u' H _; now injection H as <-|].
    intros [H|H]; discriminate.
  - exists local. split; [now destruct (new_client local)|].
    split; [discriminate|]. intros _. exact Hlocal.
Qed.

(** X28.  [Engine.__init__] either gives an engine without an auth file, around
    the client it was given when it was given one, or raises
    [ContainerEngineInitError]: no podman error and no [ValueError] leaves
    it.  With a client given, the factory is not used: the settings and
    the way clients are built do not matter.  The sink, the watermark and
    the files are as before. *)
Theorem engine_init_outcome :
  forall (setting : option string) (activation_id : string)
         (client : option (PodmanClient E)) (w : World E),
    let result :=
      __init__ new_client client_version setting activation_id client w in
    trace (snd result) = trace w
    /\ log_read_at (snd result) = log_read_at w
    /\ fs (snd result) = fs w
    /\ match fst result with
       | Ok c =>
           auth_file (snd result) = None
           /\ (forall c0, client = Some c0 -> c = c0)
       | Raise e => exists msg, e = ContainerEngineInitError msg
       end
    /\ (forall c0 new_client' setting',
          client = Some c0 ->
          __init__ new_client' client_version setting' activation_id client w
          = result).
Proof.
  intros setting activation_id client w result. subst result.
  unfold __init__, try_except, bind, version_call, set_auth_file, ret, raise.
  destruct client as [c0|].
  - destruct (client_version c0 (engine w)) as [[err|[]] e1]; cbn;
      repeat split; eauto; intros c1 H; now injection H as <-.
  - destruct (get_podman_client_run setting w) as (url & ->).
    destruct (new_client url) as [msg|c];
      [|destruct (client_version c (engine w)) as [[err|[]] e1]]; cbn;
      repeat split; eauto; discriminate.
Qed.

End ConstructionFacts.

(** ** [_create_auth_key] *)

Lemma is_ascii_app (s t : string) :
  PyStr.is_ascii (s ++ t) = PyStr.is_ascii s && PyStr.is_ascii t.
Proof.
  induction s as [|c s IH]; simpl; [reflexivity|].
  now rewrite IH, andb_assoc.
Qed.

Lemma b64encode_length_upto (n : nat) :
  forall s : string,
    (String.length s <= n)%nat ->
    String.length (PyStr.b64encode s)
    = (4 * ((String.length s + 2) / 3))%nat.
Proof.
  induction n as [n IH] using lt_wf_ind.
  intros s Hlen. destruct s as [|a [|b [|c rest]]]; try reflexivity.
  cbn [PyStr.b64encode String.length] in *.
  rewrite (IH (String.length rest)); [|lia|lia].
  replace (S (S (S (String.length rest))) + 2)%nat
    with ((String.length rest + 2) + 1 * 3)%nat by lia.
  rewrite Nat.div_add by discriminate. lia.
Qed.

(** X29.  [_create_auth_key] needs an ASCII credential: it raises
    [UnicodeEncodeError] exactly when the user name or the secret has a
    character that is not ASCII.  Otherwise it gives a dict with the one
    key "auth", whose value has four characters for every three
    characters, or part of three, of "<username>:<secret>". *)
Theorem create_auth_key_ascii_only :
  forall cred : Credential,
    (_create_auth_key cred = Raise UnicodeEncodeError
     <-> PyStr.is_ascii (username cred) = false
         \/ PyStr.is_ascii (secret cred) = false)
    /\ (forall d,
          _create_auth_key cred = Ok d ->
          exists s,
            d = [("auth", PStr s)]
            /\ String.length s
               = (4 * ((String.length (username cred)
                        + String.length (secret cred) + 3) / 3))%nat).
Proof.
  intros cred. unfold _create_auth_key.
  assert (Hascii : PyStr.is_ascii (username cred ++ ":" ++ secret cred)
                   = PyStr.is_ascii (username cred)
                     && PyStr.is_ascii (secret cred))
    by (rewrite !is_ascii_app; reflexivity).
  rewrite Hascii. split.
  - destruct (PyStr.is_ascii (username cred)),
      (PyStr.is_ascii (secret cred)); cbn [andb]; split; intros H;
      try discriminate; auto; destruct H; discriminate.
  - intros d.
    destruct (PyStr.is_ascii (username cred) && PyStr.is_ascii (secret cred));
      [|discriminate].
    intros H. injection H as <-. eexists. split; [reflexivity|].
    rewrite (b64encode_length_upto _ _ (le_n _)).
    rewrite !length_of_append. cbn [String.length].
    do 2 f_equal. lia.
Qed.

(** ** The order of [_pull_image] *)

Section MorePullFacts.

Context {E : Type}.
Variable client : PodmanClient E.
Variable messages : Messages.

(** X30.  [_pull_image] rewrites the auth file before it asks the engine for
    the image, never after: its events are a run of events without a pull
    call, followed by events without a rewritten file. *)
Theorem pull_image_writes_auth_first :
  forall request : ContainerRequest,
    emits_then before_pull no_file_dump (_pull_image client messages request).
Proof.
  intros request. unfold _pull_image, LogHandler.write.
  apply emits_then_try_except.
  - apply emits_then_bind_left; [now apply emits_emit|]. intros _.
    apply emits_then_bind_left.
    { destruct (credential request); [|apply emits_ret].
      apply emits_bind; [|intros; apply emits_ret].
      now apply write_auth_json_emits. }
    intros kwargs. apply emits_then_right.
    apply emits_bind; [now apply emits_call|]. intros image.
    destruct (negb (image_id_truthy image)); emits_steps. reflexivity.
  - intros e h He. destruct e; try discriminate.
    destruct e; injection He as <-; emits_steps. reflexivity.
Qed.

End MorePullFacts.
